(** * ai-hr-tweet-bot: the fetch / generate / publish pipeline

    A shallow embedding of [ai_hr_tweet_generator_production.py] and the
    properties of its three steps, [fetch_news], [generate_posts] and
    [send_to_spreadsheet], as [main] composes them.

    Python strings are sequences of Unicode code points: a text is a
    [list N], one code point per element.  The effects of the program
    (console output and the three network calls) are recorded in a trace
    of events; what the outside world answers to a call is an explicit
    argument of the function that makes it. *)

From stdpp Require Import gmap list strings.
From Stdlib Require Import ZArith Lia.
From Stdlib Require Ascii String.

Set Default Proof Using "Type".
Set Warnings "-register-all".
Local Open Scope Z_scope.
Local Open Scope nat_scope.

(** ** Texts, exceptions, results *)

Abbreviation str := (list N).

(** [py "abc"] is the Python literal ['abc'] (for ASCII literals). *)
Definition py (s : string) : str :=
  Ascii.N_of_ascii <$> String.list_ascii_of_string s.

(** [pyq] is [py] with every ['] of the literal read as a double quote, to
    write JSON texts. *)
Definition pyq (s : string) : str :=
  (λ c, if (c =? 39)%N then 34%N else c) <$> py s.

Inductive exn :=
| ValueError (msg : str)
| KeyError (key : str)
| TypeError
| AttributeError
| IndexError
| RecursionError
| JSONDecodeError
| HTTPError (status : Z)
| RequestException (msg : str)
| APIError (msg : str).

(** The value of a Python expression: its result, or the exception it
    raises. *)
Inductive res (A : Type) :=
| Ok (a : A)
| Raise (e : exn).
Arguments Ok {A} a.
Arguments Raise {A} e.

#[global] Instance res_ret : MRet res := λ A a, Ok a.
#[global] Instance res_bind : MBind res := λ A B f m,
  match m with
  | Ok a => f a
  | Raise e => Raise e
  end.

(** [l[i]] for a literal index [i >= 0]. *)
Definition item_at {A} (l : list A) (i : nat) : res A :=
  match l !! i with
  | Some x => Ok x
  | None => Raise IndexError
  end.

(** ** The [str] methods the program calls *)

Module Str.

(** [s.startswith(pat)] *)
Fixpoint startswith (pat s : str) : bool :=
  match pat, s with
  | [], _ => true
  | _ :: _, [] => false
  | p :: pat', c :: s' => (p =? c)%N && startswith pat' s'
  end.

(** Index of the leftmost occurrence of [pat] in [s]. *)
Fixpoint index_of (pat s : str) {struct s} : option nat :=
  if startswith pat s then Some 0
  else match s with
       | [] => None
       | _ :: r => S <$> index_of pat r
       end.

(** Index of the rightmost occurrence of [pat] in [s]. *)
Fixpoint rindex_of (pat s : str) {struct s} : option nat :=
  match s with
  | [] => if startswith pat [] then Some 0 else None
  | _ :: r =>
      match rindex_of pat r with
      | Some i => Some (S i)
      | None => if startswith pat s then Some 0 else None
      end
  end.

(** [s.find(pat)] and [s.rfind(pat)]: the index, or -1. *)
Definition find (s pat : str) : Z :=
  match index_of pat s with
  | Some i => Z.of_nat i
  | None => (-1)%Z
  end.

Definition rfind (s pat : str) : Z :=
  match rindex_of pat s with
  | Some i => Z.of_nat i
  | None => (-1)%Z
  end.

(** [pat in s] *)
Definition contains (pat s : str) : bool :=
  match index_of pat s with
  | Some _ => true
  | None => false
  end.

(** A slice bound as Python normalises it: a negative bound counts from
    the end, and the result is clamped to [0, len]. *)
Definition clamp (n i : Z) : Z :=
  if (i <? 0)%Z then Z.max (i + n) 0 else Z.min i n.

(** [s[a:b]] *)
Definition slice (s : str) (a b : Z) : str :=
  let n := Z.of_nat (length s) in
  let lo := clamp n a in
  let hi := clamp n b in
  take (Z.to_nat (hi - lo)) (drop (Z.to_nat lo) s).

(** [s[:n]] *)
Definition upto (n : nat) (s : str) : str := slice s 0 (Z.of_nat n).

(** [s.split(sep)] cuts at the leftmost occurrence of [sep] and goes on
    after it.  Every cut removes at least one character when [sep] is not
    empty, so [length s] cuts are enough. *)
Fixpoint split_from (cuts : nat) (sep s : str) : list str :=
  match cuts with
  | 0 => [s]
  | S n =>
      match index_of sep s with
      | None => [s]
      | Some i => take i s :: split_from n sep (drop (i + length sep) s)
      end
  end.

Definition split (s sep : str) : res (list str) :=
  match sep with
  | [] => Raise (ValueError (py "empty separator"))
  | _ :: _ => Ok (split_from (length s) sep s)
  end.

End Str.

(** ** JSON values and [json.loads] *)

(** What [json.loads] returns.  A number keeps its lexeme (the program
    never computes with one); an object keeps its members as written, and
    reading a key takes the last member of that name, as the [dict] built
    by the decoder does. *)
Inductive json :=
| JNull
| JBool (b : bool)
| JNum (lexeme : str)
| JStr (s : str)
| JArr (elems : list json)
| JObj (members : list (str * json)).

Module Json.

(** Outcome of scanning a prefix of the input. *)
Inductive scan (A : Type) :=
| Scanned (a : A) (rest : str)
| Malformed
| OutOfFuel.
Arguments Scanned {A} a rest.
Arguments Malformed {A}.
Arguments OutOfFuel {A}.

Definition is_ws (c : N) : bool :=
  ((c =? 32) || (c =? 9) || (c =? 10) || (c =? 13))%N.

Fixpoint skip_ws (s : str) : str :=
  match s with
  | [] => []
  | c :: r => if is_ws c then skip_ws r else s
  end.

Definition is_digit (c : N) : bool := ((48 <=? c) && (c <=? 57))%N.

(** The longest prefix of digits, and what follows it. *)
Fixpoint span_digits (s : str) : str * str :=
  match s with
  | [] => ([], [])
  | c :: r =>
      if is_digit c then
        let '(ds, rest) := span_digits r in (c :: ds, rest)
      else ([], s)
  end.

Definition hexval (c : N) : option N :=
  if ((48 <=? c) && (c <=? 57))%N then Some (c - 48)%N
  else if ((97 <=? c) && (c <=? 102))%N then Some (c - 87)%N
  else if ((65 <=? c) && (c <=? 70))%N then Some (c - 55)%N
  else None.

Definition hex4 (h1 h2 h3 h4 : N) : option N :=
  a ← hexval h1; b ← hexval h2; c ← hexval h3; d ← hexval h4;
  Some (((a * 16 + b) * 16 + c) * 16 + d)%N.

Definition is_high_surrogate (u : N) : bool :=
  ((55296 <=? u) && (u <=? 56319))%N.

Definition is_low_surrogate (u : N) : bool :=
  ((56320 <=? u) && (u <=? 57343))%N.

Definition join_surrogates (hi lo : N) : N :=
  (65536 + ((hi - 55296) * 1024 + (lo - 56320)))%N.

(** The character a one-letter escape stands for. *)
Definition simple_escape (e : N) : option N :=
  if (e =? 34)%N then Some 34%N
  else if (e =? 92)%N then Some 92%N
  else if (e =? 47)%N then Some 47%N
  else if (e =? 98)%N then Some 8%N
  else if (e =? 102)%N then Some 12%N
  else if (e =? 110)%N then Some 10%N
  else if (e =? 114)%N then Some 13%N
  else if (e =? 116)%N then Some 9%N
  else None.

Definition push (c : N) (o : option (str * str)) : option (str * str) :=
  match o with
  | Some (x, rest) => Some (c :: x, rest)
  | None => None
  end.

(** The body of a string literal, after its opening quote: the decoded
    text and what follows the closing quote.  Control characters are
    refused (the decoder is strict); a [\uXXXX] high surrogate followed by
    a [\uXXXX] low surrogate is one code point. *)
Fixpoint scanstring (s : str) : option (str * str) :=
  match s with
  | [] => None
  | c :: r =>
      if (c =? 34)%N then Some ([], r)
      else if (c =? 92)%N then
        match r with
        | [] => None
        | e :: r1 =>
            if (e =? 117)%N then
              match r1 with
              | h1 :: h2 :: h3 :: h4 :: r2 =>
                  match hex4 h1 h2 h3 h4 with
                  | None => None
                  | Some u =>
                      match r2 with
                      | b :: v :: g1 :: g2 :: g3 :: g4 :: r3 =>
                          match hex4 g1 g2 g3 g4 with
                          | Some w =>
                              if is_high_surrogate u && (b =? 92)%N
                                 && (v =? 117)%N && is_low_surrogate w
                              then push (join_surrogates u w) (scanstring r3)
                              else push u (scanstring r2)
                          | None => push u (scanstring r2)
                          end
                      | _ => push u (scanstring r2)
                      end
                  end
              | _ => None
              end
            else
              match simple_escape e with
              | Some x => push x (scanstring r1)
              | None => None
              end
        end
      else if (c <? 32)%N then None
      else push c (scanstring r)
  end.

(** [null], [true], [false] and the three constants the decoder accepts
    beyond the JSON grammar. *)
Definition literal (s : str) : option (json * str) :=
  if Str.startswith (py "null") s then Some (JNull, drop 4 s)
  else if Str.startswith (py "true") s then Some (JBool true, drop 4 s)
  else if Str.startswith (py "false") s then Some (JBool false, drop 5 s)
  else if Str.startswith (py "NaN") s then Some (JNum (py "NaN"), drop 3 s)
  else if Str.startswith (py "Infinity") s
       then Some (JNum (py "Infinity"), drop 8 s)
  else if Str.startswith (py "-Infinity") s
       then Some (JNum (py "-Infinity"), drop 9 s)
  else None.

(** A number: an optional minus sign; [0] or a non-zero digit followed by
    digits; optionally a dot and at least one digit; optionally [e] or
    [E], an optional sign and at least one digit.  A fraction or exponent
    that lacks its digits is not part of the number. *)
Definition number (s : str) : option (str * str) :=
  let '(sign, s1) :=
    match s with
    | c :: r => if (c =? 45)%N then ([c], r) else ([], s)
    | [] => ([], s)
    end in
  match s1 with
  | [] => None
  | c :: r =>
      let int_part :=
        if (c =? 48)%N then Some ([c], r)
        else if is_digit c then
          let '(ds, rest) := span_digits r in Some (c :: ds, rest)
        else None in
      match int_part with
      | None => None
      | Some (ip, s2) =>
          let '(frac, s3) :=
            match s2 with
            | dot :: d :: r' =>
                if (dot =? 46)%N && is_digit d then
                  let '(ds, rest) := span_digits (d :: r') in (dot :: ds, rest)
                else ([], s2)
            | _ => ([], s2)
            end in
          let '(exp, s4) :=
            match s3 with
            | e :: r' =>
                if ((e =? 101) || (e =? 69))%N then
                  let '(sg, r'') :=
                    match r' with
                    | c' :: t =>
                        if ((c' =? 43) || (c' =? 45))%N then ([c'], t)
                        else ([], r')
                    | [] => ([], r')
                    end in
                  match span_digits r'' with
                  | ([], _) => ([], s3)
                  | (ds, rest) => (e :: sg ++ ds, rest)
                  end
                else ([], s3)
            | [] => ([], s3)
            end in
          Some (sign ++ ip ++ frac ++ exp, s4)
      end
  end.

(** One value at the head of the input.  [fuel] bounds the number of
    nested and successive calls; [loads] gives one more than the length
    of the input, and a text nested too deeply for it ends in
    [RecursionError]. *)
Fixpoint scan_once (fuel : nat) (s : str) {struct fuel} : scan json :=
  match fuel with
  | 0 => OutOfFuel
  | S f =>
      match s with
      | [] => Malformed
      | c :: r =>
          if (c =? 34)%N then
            match scanstring r with
            | Some (x, rest) => Scanned (JStr x) rest
            | None => Malformed
            end
          else if (c =? 123)%N then
            match skip_ws r with
            | [] => Malformed
            | c' :: r' =>
                if (c' =? 125)%N then Scanned (JObj []) r'
                else members f (c' :: r') []
            end
          else if (c =? 91)%N then
            match skip_ws r with
            | [] => Malformed
            | c' :: r' =>
                if (c' =? 93)%N then Scanned (JArr []) r'
                else elements f (c' :: r') []
            end
          else
            match literal s with
            | Some (v, rest) => Scanned v rest
            | None =>
                match number s with
                | Some (lex, rest) => Scanned (JNum lex) rest
                | None => Malformed
                end
            end
      end
  end
with members (fuel : nat) (s : str) (acc : list (str * json))
  {struct fuel} : scan json :=
  match fuel with
  | 0 => OutOfFuel
  | S f =>
      match s with
      | [] => Malformed
      | q :: r =>
          if negb (q =? 34)%N then Malformed
          else
            match scanstring r with
            | None => Malformed
            | Some (k, r1) =>
                match skip_ws r1 with
                | [] => Malformed
                | colon :: r2 =>
                    if negb (colon =? 58)%N then Malformed
                    else
                      match scan_once f (skip_ws r2) with
                      | Malformed => Malformed
                      | OutOfFuel => OutOfFuel
                      | Scanned v r3 =>
                          match skip_ws r3 with
                          | [] => Malformed
                          | c :: r4 =>
                              if (c =? 125)%N then
                                Scanned (JObj (reverse ((k, v) :: acc))) r4
                              else if (c =? 44)%N then
                                members f (skip_ws r4) ((k, v) :: acc)
                              else Malformed
                          end
                      end
                end
            end
      end
  end
with elements (fuel : nat) (s : str) (acc : list json)
  {struct fuel} : scan json :=
  match fuel with
  | 0 => OutOfFuel
  | S f =>
      match scan_once f s with
      | Malformed => Malformed
      | OutOfFuel => OutOfFuel
      | Scanned v r1 =>
          match skip_ws r1 with
          | [] => Malformed
          | c :: r2 =>
              if (c =? 93)%N then Scanned (JArr (reverse (v :: acc))) r2
              else if (c =? 44)%N then elements f (skip_ws r2) (v :: acc)
              else Malformed
          end
      end
  end.

(** [json.loads(s)]: one value, with white space around it and nothing
    else. *)
Definition loads (s : str) : res json :=
  match scan_once (S (length s)) (skip_ws s) with
  | Scanned v rest =>
      match skip_ws rest with
      | [] => Ok v
      | _ :: _ => Raise JSONDecodeError
      end
  | Malformed => Raise JSONDecodeError
  | OutOfFuel => Raise RecursionError
  end.

End Json.

(** ** Operations of Python on decoded values *)

(** The last member named [k]. *)
Fixpoint assoc_last (k : str) (kvs : list (str * json)) : option json :=
  match kvs with
  | [] => None
  | (k', v) :: r =>
      match assoc_last k r with
      | Some w => Some w
      | None => if decide (k' = k) then Some v else None
      end
  end.

(** [v.get(k, d)]: only a [dict] has the method. *)
Definition get (v : json) (k : str) (d : json) : res json :=
  match v with
  | JObj kvs => Ok (default d (assoc_last k kvs))
  | _ => Raise AttributeError
  end.

(** The keys of the [dict], each once, in the order of first insertion. *)
Definition dict_keys (kvs : list (str * json)) : list str :=
  reverse (remove_dups (reverse (kvs.*1))).

(** [len(v)] *)
Definition py_len (v : json) : res nat :=
  match v with
  | JStr s => Ok (length s)
  | JArr l => Ok (length l)
  | JObj kvs => Ok (length (dict_keys kvs))
  | _ => Raise TypeError
  end.

(** The values [for x in v] goes through. *)
Definition py_iter (v : json) : res (list json) :=
  match v with
  | JStr s => Ok ((λ c, JStr [c]) <$> s)
  | JArr l => Ok l
  | JObj kvs => Ok (JStr <$> dict_keys kvs)
  | _ => Raise TypeError
  end.

(** [v[i]] for a literal index [i >= 0]; the keys of a decoded [dict] are
    strings, so an integer is never one of them. *)
Definition py_index (v : json) (i : nat) : res json :=
  match v with
  | JStr s => c ← item_at s i; Ok (JStr [c])
  | JArr l => item_at l i
  | JObj _ => Raise (KeyError [])
  | _ => Raise TypeError
  end.

(** ** Local time and [strftime] *)

(** A [datetime], as [datetime.now()] returns it. *)
Record datetime := {
  year : N;
  month : N;
  day : N;
  hour : N;
  minute : N;
  second : N
}.

(** The fields of a [datetime] are in these ranges. *)
Definition datetime_valid (d : datetime) : Prop :=
  (1 ≤ year d ≤ 9999 ∧ 1 ≤ month d ≤ 12 ∧ 1 ≤ day d ≤ 31 ∧
   hour d < 24 ∧ minute d < 60 ∧ second d < 60)%N.

Definition digit (n : N) : N := (48 + n mod 10)%N.

(** The decimal digits of [n] in front of [acc]; [n] has no more decimal
    digits than binary ones. *)
Fixpoint decimal_go (fuel : nat) (n : N) (acc : str) : str :=
  match fuel with
  | 0 => acc
  | S f =>
      let acc' := digit n :: acc in
      if (n / 10 =? 0)%N then acc' else decimal_go f (n / 10)%N acc'
  end.

Definition decimal (n : N) : str := decimal_go (S (N.size_nat n)) n [].

(** [n] in decimal, filled with zeros on the left up to [width]. *)
Definition zero_padded (width : nat) (n : N) : str :=
  let ds := decimal n in
  replicate (width - length ds) 48%N ++ ds.

(** What a conversion [%c] of the format stands for.  [%Y] is the year
    as the C library prints it, without padding. *)
Definition directive (c : N) (d : datetime) : str :=
  if (c =? 89)%N then decimal (year d)
  else if (c =? 109)%N then zero_padded 2 (month d)
  else if (c =? 100)%N then zero_padded 2 (day d)
  else if (c =? 72)%N then zero_padded 2 (hour d)
  else if (c =? 77)%N then zero_padded 2 (minute d)
  else if (c =? 83)%N then zero_padded 2 (second d)
  else [37%N; c].

(** [d.strftime(fmt)] *)
Fixpoint strftime (fmt : str) (d : datetime) : str :=
  match fmt with
  | [] => []
  | p :: r =>
      if (p =? 37)%N then
        match r with
        | [] => [p]
        | c :: r' => directive c d ++ strftime r' d
        end
      else p :: strftime r d
  end.

Definition timestamp_format : str := py "%Y-%m-%d %H:%M:%S".

(** ** The program's data *)

(** An element of the [results] array of the search service, a [dict]
    from field names to texts. *)
Abbreviation item := (gmap str str).

(** The [dict] that [fetch_news] builds for a result. *)
Record news_item := {
  title : str;
  summary : str;
  url : str
}.

(** The body of a search response: not JSON at all, or a JSON object with
    or without a [results] member. *)
Inductive search_body :=
| NotJson
| Object (results : option (list item)).

(** What [requests.post] gives for a search: an exception, or a response
    with its status code and body. *)
Inductive search_outcome :=
| NoResponse (e : exn)
| Response (status : Z) (body : search_body).

(** What [client.messages.create] gives: an exception, or a message whose
    content is a list of text blocks. *)
Inductive llm_outcome :=
| ApiFailure (e : exn)
| Message (content : list str).

(** What [requests.post] gives for the webhook. *)
Inductive webhook_outcome :=
| NoReply (e : exn)
| Reply (status : Z) (text : str).

(** ** Console output and events *)

(** The lines the program prints, one constructor for each [print] of
    the source, with the values it interpolates. *)
Inductive line :=
| LSearchError (e : exn)
| LSent
| LResponse (text : str)
| LSendError (e : exn)
| LRule
| LBanner
| LDate (stamp : str)
| LFetching
| LFetched (count : nat)
| LNoNews
| LNewsTitle (i : nat) (title50 : str)
| LGenerating
| LSelected (v : json)
| LSelectedUrl (v : json)
| LReason (v : json)
| LDraft (i : nat) (format_type : json)
| LHook (v : json)
| LDash
| LText (v : json)
| LCount (n : nat)
| LSending.

Inductive event :=
| Print (l : line)
| SearchRequest (api_key query : str)
| GenerateRequest (news : list news_item)
| PublishRequest (data : gmap str json).

(** A computation with effects: the events it produced, in order, and
    its result or the exception that ended it. *)
Record io (A : Type) := Run {
  trace : list event;
  outcome : res A
}.
Arguments Run {A} trace outcome.
Arguments trace {A} _.
Arguments outcome {A} _.

#[global] Instance io_ret : MRet io := λ A a, Run [] (Ok a).
#[global] Instance io_bind : MBind io := λ A B f m,
  match outcome m with
  | Ok a => Run (trace m ++ trace (f a)) (outcome (f a))
  | Raise e => Run (trace m) (Raise e)
  end.

Definition emit (ev : event) : io unit := Run [ev] (Ok ()).
Definition print (l : line) : io unit := emit (Print l).
Definition raise {A} (e : exn) : io A := Run [] (Raise e).

(** An expression without effects, inside [io]. *)
Definition eval {A} (r : res A) : io A := Run [] r.

(** [try: m  except Exception as e: handler e] *)
Definition try_except {A} (m : io A) (handler : exn → io A) : io A :=
  match outcome m with
  | Ok _ => m
  | Raise e => Run (trace m ++ trace (handler e)) (outcome (handler e))
  end.

(** [for x in l: body x] *)
Fixpoint for_each {A} (l : list A) (body : A → io unit) : io unit :=
  match l with
  | [] => mret ()
  | x :: r => body x ;; for_each r body
  end.

(** [enumerate(l, 1)] *)
Definition enumerate1 {A} (l : list A) : list (nat * A) :=
  imap (λ i x, (S i, x)) l.

(** ** The news fetcher *)

Definition SEARCH_QUERIES : list str := [
  py "AI Agent " ++ [25505; 29992; 32; 20154; 26448]%N ++ py " 2025";
  py "AI" ++ [12456; 12540; 12472; 12455; 12531; 12488; 32;
              20154; 20107]%N ++ py " HR";
  [25505; 29992]%N ++ py "AI" ++
    [32; 33258; 21205; 21270; 32; 26368; 26032]%N
].

(** [r.raise_for_status()]: an exception for a 4xx or 5xx status. *)
Definition raise_for_status (status : Z) : res unit :=
  if decide (400 ≤ status < 600)%Z then Raise (HTTPError status) else Ok ().

(** [r.json().get("results", [])], after [r.raise_for_status()]. *)
Definition search_results (o : search_outcome) : res (list item) :=
  match o with
  | NoResponse e => Raise e
  | Response status body =>
      raise_for_status status ;;
      match body with
      | NotJson => Raise JSONDecodeError
      | Object results => Ok (default [] results)
      end
  end.

(** The two objects the loop mutates. *)
Record store := {
  all_news : list news_item;
  seen : gset str
}.

(** The body of the inner loop for one item: the store it leaves, and the
    exception it raises, if any. *)
Definition visit (it : item) (st : store) : store * option exn :=
  match it !! py "url" with
  | None => (st, Some (KeyError (py "url")))
  | Some u =>
      if decide (u ∈ seen st) then (st, None)
      else
        ({| all_news :=
              all_news st ++ [
                {| title := default [] (it !! py "title");
                   summary := Str.upto 300 (default [] (it !! py "content"));
                   url := default [] (it !! py "url") |} ];
            seen := {[u]} ∪ seen st |}, None)
  end.

(** The inner loop: an exception ends it, and what the items before did
    to the store stays. *)
Fixpoint visit_all (items : list item) (st : store) : store * option exn :=
  match items with
  | [] => (st, None)
  | it :: r =>
      match visit it st with
      | (st', None) => visit_all r st'
      | (st', Some e) => (st', Some e)
      end
  end.

(** The body of the outer loop for one query, paired with the outcome of
    its request. *)
Definition search (api_key : str) (st : store)
    (qo : str * search_outcome) : io store :=
  emit (SearchRequest api_key qo.1) ;;
  match search_results qo.2 with
  | Raise e => print (LSearchError e) ;; mret st
  | Ok items =>
      match visit_all items st with
      | (st', None) => mret st'
      | (st', Some e) => print (LSearchError e) ;; mret st'
      end
  end.

Fixpoint fetch_loop (api_key : str) (run : list (str * search_outcome))
    (st : store) : io store :=
  match run with
  | [] => mret st
  | qo :: r => st' ← search api_key st qo; fetch_loop api_key r st'
  end.

(** The name of the environment variable. *)
Definition TAVILY_API_KEY : str := py "TAVILY_API_KEY".

(** [fetch_news(queries)], in an environment [environ]; [run] lists the
    queries in order, each with the outcome of its request. *)
Definition fetch_news (environ : gmap str str)
    (run : list (str * search_outcome)) : io (list news_item) :=
  match environ !! TAVILY_API_KEY with
  | Some (c :: k) =>
      st ← fetch_loop (c :: k) run {| all_news := []; seen := ∅ |};
      mret (take 10 (all_news st))
  | _ => raise (ValueError (py "TAVILY_API_KEY not set"))
  end.

(** ** The post generator *)

Definition fence : str := py "```json".
Definition ticks : str := py "```".

(** The text handed to [json.loads]: lines 97 to 100 of the source. *)
Definition extract_json (text : str) : res str :=
  if Str.contains fence text then
    parts ← Str.split text fence;
    part ← item_at parts 1;
    pieces ← Str.split part ticks;
    item_at pieces 0
  else
    Ok (Str.slice text (Str.find text (py "{"))
                       (Str.rfind text (py "}") + 1)).

(** What [generate_posts] computes from the reply of the service. *)
Definition parse_reply (llm : llm_outcome) : res json :=
  match llm with
  | ApiFailure e => Raise e
  | Message content =>
      text ← item_at content 0;
      text' ← extract_json text;
      Json.loads text'
  end.

Definition generate_posts (llm : llm_outcome) (news : list news_item)
    : io json :=
  emit (GenerateRequest news) ;;
  eval (parse_reply llm).

(** ** The result publisher *)

(** [posts[i].get("text", "") if len(posts) > i else ""] *)
Definition post_text (posts : json) (i : nat) : res json :=
  n ← py_len posts;
  if decide (i < n) then
    p ← py_index posts i;
    get p (py "text") (JStr [])
  else Ok (JStr []).

(** The [dict] sent to the webhook. *)
Definition build_record (now : datetime) (result : json)
    : res (gmap str json) :=
  posts ← get result (py "posts") (JArr []);
  selected_news ← get result (py "selected_news") (JStr []);
  selected_news_url ← get result (py "selected_news_url") (JStr []);
  reason ← get result (py "reason") (JStr []);
  post1 ← post_text posts 0;
  post2 ← post_text posts 1;
  post3 ← post_text posts 2;
  Ok (list_to_map [
    (py "timestamp", JStr (strftime timestamp_format now));
    (py "selected_news", selected_news);
    (py "selected_news_url", selected_news_url);
    (py "reason", reason);
    (py "post1", post1);
    (py "post2", post2);
    (py "post3", post3)
  ]).

Definition send_to_spreadsheet (now : datetime) (webhook : webhook_outcome)
    (result : json) : io unit :=
  data ← eval (build_record now result);
  try_except
    (emit (PublishRequest data) ;;
     match webhook with
     | NoReply e => raise e
     | Reply status text => print LSent ;; print (LResponse text)
     end)
    (λ e, print (LSendError e)).

(** ** The pipeline *)

(** What a run gets from outside: the environment variables, the answer
    of the search service to each query, the answer of the generative
    service, the answer of the webhook, and the local time when the run
    starts and when the record is built. *)
Record world := {
  environ : gmap str str;
  search_service : str → search_outcome;
  llm_service : llm_outcome;
  webhook_service : webhook_outcome;
  clock_start : datetime;
  clock_publish : datetime
}.

(** The summary of one draft, lines 152 to 156. *)
Definition show_post (ip : nat * json) : io unit :=
  format_type ← eval (get ip.2 (py "format_type") JNull);
  print (LDraft ip.1 format_type) ;;
  hook ← eval (get ip.2 (py "hook") JNull);
  print (LHook hook) ;;
  print LDash ;;
  text ← eval (get ip.2 (py "text") JNull);
  print (LText text) ;;
  text' ← eval (get ip.2 (py "text") (JStr []));
  n ← eval (py_len text');
  print (LCount n).

(** Lines 142 to 160: what [main] does with a non-empty list. *)
Definition generate_and_publish (w : world) (news : list news_item)
    : io unit :=
  print LGenerating ;;
  result ← generate_posts (llm_service w) news;
  print LRule ;;
  selected ← eval (get result (py "selected_news") JNull);
  print (LSelected selected) ;;
  selected_url ← eval (get result (py "selected_news_url") JNull);
  print (LSelectedUrl selected_url) ;;
  reason ← eval (get result (py "reason") JNull);
  print (LReason reason) ;;
  print LRule ;;
  posts ← eval (get result (py "posts") (JArr []));
  drafts ← eval (py_iter posts);
  for_each (enumerate1 drafts) show_post ;;
  print LSending ;;
  send_to_spreadsheet (clock_publish w) (webhook_service w) result.

(** The queries of [main], each with the answer of the search service. *)
Definition main_run (w : world) : list (str * search_outcome) :=
  (λ q, (q, search_service w q)) <$> SEARCH_QUERIES.

Definition main (w : world) : io unit :=
  print LRule ;;
  print LBanner ;;
  print (LDate (strftime timestamp_format (clock_start w))) ;;
  print LRule ;;
  print LFetching ;;
  news ← fetch_news (environ w) (main_run w);
  print (LFetched (length news)) ;;
  match news with
  | [] => print LNoNews
  | _ :: _ =>
      for_each (enumerate1 news)
        (λ kn, print (LNewsTitle kn.1 (Str.upto 50 (title kn.2)))) ;;
      generate_and_publish w news
  end.

(** ** Notions used to state the properties *)

(** The part of [s] before the leftmost occurrence of [pat]; all of [s]
    when there is none. *)
Definition cut_before (pat s : str) : str :=
  match Str.index_of pat s with
  | Some i => take i s
  | None => s
  end.

(** The urls the inner loop reads in a response, in order: reading the
    url of an item that has none raises [KeyError], which ends the
    response. *)
Fixpoint urls_read (items : list item) : list str :=
  match items with
  | [] => []
  | it :: r =>
      match it !! py "url" with
      | Some u => u :: urls_read r
      | None => []
      end
  end.

(** The urls of a run in the order the loops meet them: queries in the
    given order, results in response order. *)
Fixpoint url_stream (run : list (str * search_outcome)) : list str :=
  match run with
  | [] => []
  | qo :: r =>
      match search_results qo.2 with
      | Ok items => urls_read items ++ url_stream r
      | Raise _ => url_stream r
      end
  end.

(** The position at which [u] is first met in [l] (the length of [l] if
    it never is). *)
Fixpoint first_seen (u : str) (l : list str) : nat :=
  match l with
  | [] => 0
  | x :: r => if decide (x = u) then 0 else S (first_seen u r)
  end.

(** The urls of the accumulated list, in order. *)
Definition urls_of (st : store) : list str := url <$> all_news st.

(** [urls] is in discovery order with respect to the stream [l]: an
    earlier element was first met earlier. *)
Definition discovery_ordered (urls l : list str) : Prop :=
  ∀ i j a b, urls !! i = Some a → urls !! j = Some b → i < j →
    first_seen a l < first_seen b l.

(** What the loops maintain, [l] being the urls met so far: the seen-set
    and the accumulated list hold exactly the urls met, each once in the
    list, in discovery order. *)
Definition fetch_inv (st : store) (l : list str) : Prop :=
  (∀ u, u ∈ seen st ↔ u ∈ l) ∧
  (∀ u, u ∈ urls_of st ↔ u ∈ l) ∧
  NoDup (urls_of st) ∧
  discovery_ordered (urls_of st) l.

(** The store after one query, and after a run. *)
Definition store_after (st : store) (o : search_outcome) : store :=
  match search_results o with
  | Ok items => (visit_all items st).1
  | Raise _ => st
  end.

(** The exception the body of the outer loop catches, if any. *)
Definition search_error (st : store) (o : search_outcome) : option exn :=
  match search_results o with
  | Ok items => (visit_all items st).2
  | Raise e => Some e
  end.

(** A request fails when [requests.post] raises, when the status is 4xx
    or 5xx, or when the body is not JSON. *)
Definition request_fails (o : search_outcome) : Prop :=
  match o with
  | NoResponse _ => True
  | Response status body => (400 ≤ status < 600)%Z ∨ body = NotJson
  end.

#[global] Instance search_body_eq_dec : EqDecision search_body.
Proof. solve_decision. Defined.

#[global] Instance request_fails_dec o : Decision (request_fails o).
Proof. destruct o; simpl; apply _. Defined.

(** A request that got no response, or one whose status is not 2xx. *)
Definition not_2xx (o : search_outcome) : Prop :=
  match o with
  | NoResponse _ => True
  | Response status _ => ¬ (200 ≤ status < 300)%Z
  end.

#[global] Instance not_2xx_dec o : Decision (not_2xx o).
Proof. destruct o; simpl; apply _. Defined.

(** The queries of the search requests of a trace, in order. *)
Definition requests_of (tr : list event) : list str :=
  omap (λ ev, match ev with SearchRequest _ q => Some q | _ => None end) tr.

(** The output of the generator as the data model types it: texts, and
    a list of drafts with three texts each; and the decoded value of that
    shape. *)
Record post_draft := {
  pd_text : str;
  pd_format_type : str;
  pd_hook : str
}.

Record generation_result := {
  gr_selected_news : str;
  gr_selected_news_url : str;
  gr_reason : str;
  gr_posts : list post_draft
}.

Definition draft_json (p : post_draft) : json :=
  JObj [ (py "text", JStr (pd_text p));
         (py "format_type", JStr (pd_format_type p));
         (py "hook", JStr (pd_hook p)) ].

Definition result_json (g : generation_result) : json :=
  JObj [ (py "selected_news", JStr (gr_selected_news g));
         (py "selected_news_url", JStr (gr_selected_news_url g));
         (py "reason", JStr (gr_reason g));
         (py "posts", JArr (draft_json <$> gr_posts g)) ].

(** The seven keys of the record. *)
Definition record_keys : list str := [
  py "timestamp"; py "selected_news"; py "selected_news_url"; py "reason";
  py "post1"; py "post2"; py "post3"
].

(** The layout [YYYY-MM-DD HH:MM:SS], digit by digit. *)
Definition iso_stamp (d : datetime) : str := [
  digit (year d / 1000); digit (year d / 100); digit (year d / 10);
  digit (year d); 45;
  digit (month d / 10); digit (month d); 45;
  digit (day d / 10); digit (day d); 32;
  digit (hour d / 10); digit (hour d); 58;
  digit (minute d / 10); digit (minute d); 58;
  digit (second d / 10); digit (second d)
]%N.

(** The text of the [i]-th draft, or the empty text. *)
Definition draft_text (g : generation_result) (i : nat) : str :=
  default [] (pd_text <$> gr_posts g !! i).

(** What [main] prints before it fetches, and for the titles. *)
Definition header (w : world) : list event := Print <$> [
  LRule; LBanner; LDate (strftime timestamp_format (clock_start w));
  LRule; LFetching ].

Definition title_lines (news : list news_item) : list event :=
  (λ kn, Print (LNewsTitle kn.1 (Str.upto 50 (title kn.2))))
    <$> enumerate1 news.

(** The events that call the generative service and the webhook. *)
Definition is_generate (ev : event) : Prop :=
  match ev with GenerateRequest _ => True | _ => False end.

Definition is_publish (ev : event) : Prop :=
  match ev with PublishRequest _ => True | _ => False end.

(** The world [w] with another answer of the webhook. *)
Definition with_webhook (w : world) (o : webhook_outcome) : world :=
  {| environ := environ w;
     search_service := search_service w;
     llm_service := llm_service w;
     webhook_service := o;
     clock_start := clock_start w;
     clock_publish := clock_publish w |}.

(** The [dict] that the inner loop appends for an item. *)
Definition news_of (it : item) : news_item :=
  {| title := default [] (it !! py "title");
     summary := Str.upto 300 (default [] (it !! py "content"));
     url := default [] (it !! py "url") |}.

(** What [main] prints for the drafts of a typed result, and what
    [send_to_spreadsheet] prints for an answer of the webhook. *)
Definition draft_events (i : nat) (p : post_draft) : list event := Print <$> [
  LDraft i (JStr (pd_format_type p)); LHook (JStr (pd_hook p)); LDash;
  LText (JStr (pd_text p)); LCount (length (pd_text p)) ].

Definition draft_lines (g : generation_result) : list event :=
  concat (imap (λ i p, draft_events (S i) p) (gr_posts g)).

Definition webhook_lines (o : webhook_outcome) : list event :=
  match o with
  | NoReply e => [Print (LSendError e)]
  | Reply _ text => [Print LSent; Print (LResponse text)]
  end.

(** The record of a typed result. *)
Definition typed_record (now : datetime) (g : generation_result)
    : gmap str json :=
  list_to_map [
    (py "timestamp", JStr (strftime timestamp_format now));
    (py "selected_news", JStr (gr_selected_news g));
    (py "selected_news_url", JStr (gr_selected_news_url g));
    (py "reason", JStr (gr_reason g));
    (py "post1", JStr (draft_text g 0));
    (py "post2", JStr (draft_text g 1));
    (py "post3", JStr (draft_text g 2)) ].

(** What [main] does up to the request to the generative service, after
    a fetch with trace [tr] that returned [news]. *)
Definition upto_generation (w : world) (tr : list event)
    (news : list news_item) : list event :=
  header w ++ tr ++ Print (LFetched (length news)) ::
    title_lines news ++ [Print LGenerating; GenerateRequest news].

(** The calls of a run to the outside: the searches, with their
    queries, the call to the generative service and the call to the
    webhook. *)
Inductive call :=
  | CallSearch (q : str)
  | CallGenerate
  | CallPublish.

Definition call_of (ev : event) : option call :=
  match ev with
  | SearchRequest _ q => Some (CallSearch q)
  | GenerateRequest _ => Some CallGenerate
  | PublishRequest _ => Some CallPublish
  | Print _ => None
  end.

Definition calls_of (tr : list event) : list call := omap call_of tr.

(** The result [g] with other drafts. *)
Definition with_posts (g : generation_result) (ps : list post_draft)
    : generation_result :=
  {| gr_selected_news := gr_selected_news g;
     gr_selected_news_url := gr_selected_news_url g;
     gr_reason := gr_reason g;
     gr_posts := ps |}.

(** The values that have no length: [len] raises [TypeError] on them. *)
Definition unsized (v : json) : Prop :=
  match v with
  | JNull | JBool _ | JNum _ => True
  | _ => False
  end.

(** The key of the record for the draft at index [i]. *)
Definition post_key (i : nat) : str := py "post" ++ decimal (N.of_nat (S i)).

(** What the record holds for the draft at index [i] of a list of
    [dict]s: the value of the draft under [text], of whatever type, or the
    empty text. *)
Definition text_value (pks : list (list (str * json))) (i : nat) : json :=
  match pks !! i with
  | Some pk => default (JStr []) (assoc_last (py "text") pk)
  | None => JStr []
  end.

(** An object text: [{], some text, [}]. *)
Definition braced (mid : str) : str := py "{" ++ mid ++ py "}".

(** ** Sample inputs *)

(** A reply whose fenced block [{}] is closed by a run of four backticks
    followed by [json]. *)
Definition reply_overlap : str := py "```json{}````json".

(** A reply without a fence, with braces in the prose before the
    object. *)
Definition reply_prose_braces : str := pyq "{x} {'a': 1}".

(** A reply without a fence, with the object between plain prose. *)
Definition reply_embedded : str := pyq "Here it is: {'a': 1} Done.".

(** An environment with the key, and one where it is set to the empty
    text. *)
Definition env_key : gmap str str := {[ TAVILY_API_KEY := py "tvly-1" ]}.
Definition env_empty_key : gmap str str := {[ TAVILY_API_KEY := [] ]}.

Definition item_of (u t c : str) : item :=
  {[ py "url" := u; py "title" := t; py "content" := c ]}.

(** A run of three queries: the second request fails, and the third
    response repeats a url of the first. *)
Definition run_sample : list (str * search_outcome) := [
  (py "q1", Response 200 (Object (Some [
     item_of (py "https://a") (py "A") (py "aa");
     item_of (py "https://b") (py "B") (py "bb") ])));
  (py "q2", Response 503 NotJson);
  (py "q3", Response 200 (Object (Some [
     item_of (py "https://b") (py "B") (py "bb");
     item_of (py "https://c") (py "C") (py "cc") ])))
].

(** A run of one query, answered with status 302 and a body that has
    one result. *)
Definition run_redirect : list (str * search_outcome) := [
  (py "q1", Response 302 (Object (Some [
     item_of (py "https://a") (py "A") (py "aa") ])))
].

(** A run in which no query gives a result. *)
Definition run_nothing : list (str * search_outcome) := [
  (py "q1", NoResponse (RequestException (py "connection refused")));
  (py "q2", Response 200 (Object (Some [])));
  (py "q3", Response 200 (Object None))
].

(** Three queries with five results each, fifteen distinct urls. *)
Definition numbered_item (n : N) : item :=
  item_of (py "https://n/" ++ decimal n) (py "T" ++ decimal n) (py "c").

Definition numbered_news (n : N) : news_item :=
  {| title := py "T" ++ decimal n; summary := py "c";
     url := py "https://n/" ++ decimal n |}.

Definition run_fifteen : list (str * search_outcome) := [
  (py "q1", Response 200 (Object (Some
     (numbered_item <$> [0; 1; 2; 3; 4]%N))));
  (py "q2", Response 200 (Object (Some
     (numbered_item <$> [5; 6; 7; 8; 9]%N))));
  (py "q3", Response 200 (Object (Some
     (numbered_item <$> [10; 11; 12; 13; 14]%N))))
].

Definition news_ten : list news_item :=
  numbered_news <$> [0; 1; 2; 3; 4; 5; 6; 7; 8; 9]%N.

(** What [fetch_news] returns for [run_sample]. *)
Definition news_sample : list news_item := [
  {| title := py "A"; summary := py "aa"; url := py "https://a" |};
  {| title := py "B"; summary := py "bb"; url := py "https://b" |};
  {| title := py "C"; summary := py "cc"; url := py "https://c" |}
].

(** A time, a result with one draft, and the record built from them. *)
Definition now_sample : datetime :=
  {| year := 2025; month := 3; day := 9;
     hour := 7; minute := 45; second := 6 |}.

Definition result_sample : generation_result :=
  {| gr_selected_news := py "AI hiring";
     gr_selected_news_url := py "https://a";
     gr_reason := py "timely";
     gr_posts := [ {| pd_text := py "Post one https://a";
                      pd_format_type := py "list";
                      pd_hook := py "Did you know?" |} ] |}.

Definition record_sample : gmap str json := list_to_map [
  (py "timestamp", JStr (py "2025-03-09 07:45:06"));
  (py "selected_news", JStr (py "AI hiring"));
  (py "selected_news_url", JStr (py "https://a"));
  (py "reason", JStr (py "timely"));
  (py "post1", JStr (py "Post one https://a"));
  (py "post2", JStr []);
  (py "post3", JStr [])
].

(** A world in which the three searches find nothing. *)
Definition world_nothing : world :=
  {| environ := env_key;
     search_service := λ _, Response 200 (Object (Some []));
     llm_service := Message [reply_embedded];
     webhook_service := Reply 200 (py "ok");
     clock_start := now_sample;
     clock_publish := now_sample |}.

(** A world in which the searches find one item, and the reply of the
    generative service has no JSON in it. *)
Definition world_bad_reply : world :=
  {| environ := env_key;
     search_service := λ _, Response 200 (Object (Some [
       item_of (py "https://a") (py "A") (py "aa") ]));
     llm_service := Message [py "Sorry, I cannot help."];
     webhook_service := Reply 200 (py "ok");
     clock_start := now_sample;
     clock_publish := now_sample |}.

(** A world in which the searches find one item and the generative
    service does not answer. *)
Definition world_api_down : world :=
  {| environ := env_key;
     search_service := λ _, Response 200 (Object (Some [
       item_of (py "https://a") (py "A") (py "aa") ]));
     llm_service := ApiFailure (APIError (py "overloaded"));
     webhook_service := Reply 200 (py "ok");
     clock_start := now_sample;
     clock_publish := now_sample |}.

(** The same, with a reply that is a JSON array. *)
Definition world_array_reply : world :=
  {| environ := env_key;
     search_service := λ _, Response 200 (Object (Some [
       item_of (py "https://a") (py "A") (py "aa") ]));
     llm_service := Message [py "```json[1, 2]```"];
     webhook_service := Reply 200 (py "ok");
     clock_start := now_sample;
     clock_publish := now_sample |}.

(** The same, without the key. *)
Definition world_no_key : world :=
  {| environ := ∅;
     search_service := λ _, Response 200 (Object (Some []));
     llm_service := Message [reply_embedded];
     webhook_service := Reply 200 (py "ok");
     clock_start := now_sample;
     clock_publish := now_sample |}.

Definition news_one : list news_item :=
  [ {| title := py "A"; summary := py "aa"; url := py "https://a" |} ].

(** A world in which everything answers, with a reply of the typed
    shape in a fenced block. *)
Definition reply_typed : str :=
  pyq "Sure. ```json{'selected_news': 'AI hiring', 'selected_news_url': 'https://a', 'reason': 'timely', 'posts': [{'text': 'Post one https://a', 'format_type': 'list', 'hook': 'Did you know?'}]}``` Done.".

Definition world_complete : world :=
  {| environ := env_key;
     search_service := λ _, Response 200 (Object (Some [
       item_of (py "https://a") (py "A") (py "aa") ]));
     llm_service := Message [reply_typed];
     webhook_service := NoReply (RequestException (py "connection refused"));
     clock_start := now_sample;
     clock_publish := now_sample |}.

(** * Properties *)

(** ** Occurrences and cuts *)

Section str_facts.
Implicit Types pat sep s : str.

Lemma startswith_app pat s : Str.startswith pat (pat ++ s) = true.
Proof.
  induction pat as [|p pat IH]; [done|].
  simpl. by rewrite N.eqb_refl, IH.
Qed.

Lemma startswith_spec pat s :
  Str.startswith pat s = true ↔ ∃ r, s = pat ++ r.
Proof.
  split.
  - revert s. induction pat as [|p pat IH]; intros s H.
    + by exists s.
    + destruct s as [|c s]; [done|]. simpl in H.
      apply andb_true_iff in H as [Hc Hr].
      apply N.eqb_eq in Hc as ->.
      destruct (IH _ Hr) as [r ->]. by exists r.
  - intros [r ->]. apply startswith_app.
Qed.

Lemma startswith_length pat s :
  Str.startswith pat s = true → length pat ≤ length s.
Proof. intros [r ->]%startswith_spec. rewrite length_app. lia. Qed.

Lemma startswith_nil pat : pat ≠ [] → Str.startswith pat [] = false.
Proof. by destruct pat. Qed.

(** [index_of] gives an occurrence, and the leftmost one. *)
Lemma index_of_Some pat s i :
  Str.index_of pat s = Some i ↔
  Str.startswith pat (drop i s) = true ∧
  ∀ j, j < i → Str.startswith pat (drop j s) = false.
Proof.
  revert i. induction s as [|c s IH]; intros i; simpl;
    [destruct (Str.startswith pat []) eqn:E
    |destruct (Str.startswith pat (c :: s)) eqn:E].
  - split.
    + intros [= <-]. split; [done|]. intros; lia.
    + intros [_ Hlt]. destruct i as [|i]; [done|].
      specialize (Hlt 0 ltac:(lia)). simpl in Hlt. congruence.
  - split; [done|]. intros [H _]. destruct i; simpl in H; congruence.
  - split.
    + intros [= <-]. split; [done|]. intros; lia.
    + intros [_ Hlt]. destruct i as [|i]; [done|].
      specialize (Hlt 0 ltac:(lia)). simpl in Hlt. congruence.
  - split.
    + destruct (Str.index_of pat s) as [k|] eqn:Ek; [|done].
      intros [= <-]. destruct (proj1 (IH k) eq_refl) as [Hk Hlt].
      split; [done|].
      intros [|j] Hj; simpl; [done|]. apply Hlt. lia.
    + intros [Hi Hlt]. destruct i as [|i]; simpl in Hi; [congruence|].
      assert (Str.index_of pat s = Some i) as ->; [|done].
      apply IH. split; [done|]. intros j Hj. apply (Hlt (S j)). lia.
Qed.

Lemma index_of_None pat s :
  Str.index_of pat s = None ↔ ∀ j, Str.startswith pat (drop j s) = false.
Proof.
  induction s as [|c s IH]; simpl;
    [destruct (Str.startswith pat []) eqn:E
    |destruct (Str.startswith pat (c :: s)) eqn:E].
  - split; [done|]. intros H. specialize (H 0). simpl in H. congruence.
  - split; [|done]. intros _ j. by destruct j.
  - split; [done|]. intros H. specialize (H 0). simpl in H. congruence.
  - destruct (Str.index_of pat s) as [k|] eqn:Ek.
    + split; [done|]. intros H.
      assert (Some k = None) as Hn; [|done].
      apply IH. intros j. apply (H (S j)).
    + split; [|done]. intros _ [|j]; simpl; [done|]. by apply IH.
Qed.

Lemma index_of_bound pat s i :
  Str.index_of pat s = Some i → i + length pat ≤ length s.
Proof.
  revert i. induction s as [|c s IH]; intros i; simpl.
  - destruct (Str.startswith pat []) eqn:E; [|done].
    intros [= <-]. apply startswith_length in E. simpl in *. lia.
  - destruct (Str.startswith pat (c :: s)) eqn:E.
    + intros [= <-]. apply startswith_length in E. simpl in *. lia.
    + destruct (Str.index_of pat s) as [j|]; [|done].
      intros [= <-]. specialize (IH j eq_refl). simpl. lia.
Qed.

Lemma split_from_head n sep s :
  sep ≠ [] → length s ≤ n →
  head (Str.split_from n sep s) = Some (cut_before sep s).
Proof.
  intros Hsep Hn. unfold cut_before. destruct n as [|n]; simpl.
  - destruct s; [|simpl in Hn; lia]. simpl.
    by rewrite startswith_nil.
  - by destruct (Str.index_of sep s).
Qed.

Lemma split_from_found n sep s i :
  Str.index_of sep s = Some i →
  Str.split_from (S n) sep s =
  take i s :: Str.split_from n sep (drop (i + length sep) s).
Proof. intros H. simpl. by rewrite H. Qed.

(** More cuts than the length of the text change nothing. *)
Lemma split_from_enough n m sep s :
  sep ≠ [] → length s ≤ n → length s ≤ m →
  Str.split_from n sep s = Str.split_from m sep s.
Proof.
  intros Hsep. revert m s.
  induction n as [|n IH]; intros m s Hn Hm.
  - destruct s; [|simpl in Hn; lia].
    destruct m; simpl; [done|]. by rewrite startswith_nil.
  - destruct m as [|m].
    + destruct s; [|simpl in Hm; lia]. simpl. by rewrite startswith_nil.
    + simpl. destruct (Str.index_of sep s) as [i|] eqn:Hi; [|done].
      f_equal. apply index_of_bound in Hi.
      assert (0 < length sep) by (destruct sep; [done|simpl; lia]).
      apply IH; rewrite length_drop; lia.
Qed.

Lemma split_ok s sep :
  sep ≠ [] → Str.split s sep = Ok (Str.split_from (length s) sep s).
Proof. by destruct sep. Qed.

(** [s.split(sep)[0]] is what precedes the first [sep]. *)
Lemma split_first s sep :
  sep ≠ [] →
  (parts ← Str.split s sep; item_at parts 0) = Ok (cut_before sep s).
Proof.
  intros Hsep. rewrite split_ok by done. simpl. unfold item_at.
  pose proof (split_from_head (length s) sep s Hsep (le_n _)) as H.
  destruct (Str.split_from (length s) sep s) as [|x l]; [done|].
  simpl in *. by injection H as ->.
Qed.

(** When [sep] occurs in [s], [s.split(sep)[1]] is what lies between its
    first occurrence and the next one after it. *)
Lemma split_second s sep i :
  sep ≠ [] → Str.index_of sep s = Some i →
  (parts ← Str.split s sep; item_at parts 1) =
  Ok (cut_before sep (drop (i + length sep) s)).
Proof.
  intros Hsep Hi. rewrite split_ok by done. simpl. unfold item_at.
  pose proof (index_of_bound _ _ _ Hi) as Hb.
  assert (0 < length sep) by (destruct sep; [done|simpl; lia]).
  destruct (length s) as [|n] eqn:En; [lia|].
  rewrite (split_from_found _ _ _ _ Hi). simpl.
  pose proof (split_from_head n sep (drop (i + length sep) s) Hsep) as H'.
  rewrite length_drop in H'. specialize (H' ltac:(lia)).
  destruct (Str.split_from n sep (drop (i + length sep) s)) as [|x l];
    [done|].
  simpl in *. by injection H' as ->.
Qed.

End str_facts.

(** ** The extraction step of [generate_posts] *)

Lemma fence_ne : fence ≠ [].
Proof. done. Qed.

Lemma ticks_ne : ticks ≠ [].
Proof. done. Qed.

(** With a fence in the reply, the extraction is two cuts. *)
Lemma extract_json_fenced text i :
  Str.index_of fence text = Some i →
  extract_json text =
  Ok (cut_before ticks (cut_before fence (drop (i + length fence) text))).
Proof.
  intros Hi. unfold extract_json, Str.contains. rewrite Hi.
  pose proof (split_second text fence i fence_ne Hi) as H2.
  destruct (Str.split text fence) as [parts|e]; simpl in *; [|done].
  rewrite H2. simpl.
  apply (split_first _ ticks ticks_ne).
Qed.

(** Without one, it is a slice. *)
Lemma extract_json_unfenced text :
  Str.index_of fence text = None →
  extract_json text =
  Ok (Str.slice text (Str.find text (py "{"))
                     (Str.rfind text (py "}") + 1)).
Proof. intros Hi. unfold extract_json, Str.contains. by rewrite Hi. Qed.

Lemma extract_json_total text : ∃ s, extract_json text = Ok s.
Proof.
  destruct (Str.index_of fence text) as [i|] eqn:Hi.
  - eexists. by apply extract_json_fenced.
  - eexists. by apply extract_json_unfenced.
Qed.


(** ** One-character patterns and slices *)

Section char_facts.
Implicit Types (c : N) (s pre post : str).

Lemma startswith_char c s :
  Str.startswith [c] s = true ↔ ∃ r, s = c :: r.
Proof. rewrite startswith_spec. naive_solver. Qed.

Lemma index_of_char_None c s : c ∉ s → Str.index_of [c] s = None.
Proof.
  induction s as [|x s IH]; intros Hc; [done|].
  apply not_elem_of_cons in Hc as [Hx Hs]. simpl.
  destruct (N.eqb_spec c x) as [->|_]; [done|]. simpl.
  by rewrite IH.
Qed.

Lemma rindex_of_char_None c s : c ∉ s → Str.rindex_of [c] s = None.
Proof.
  induction s as [|x s IH]; intros Hc; [done|].
  apply not_elem_of_cons in Hc as [Hx Hs]. simpl.
  rewrite IH by done.
  by destruct (N.eqb_spec c x) as [->|_].
Qed.

Lemma index_of_char_app c pre s :
  c ∉ pre → Str.index_of [c] (pre ++ c :: s) = Some (length pre).
Proof.
  induction pre as [|x pre IH]; intros Hc; simpl.
  - by rewrite N.eqb_refl.
  - apply not_elem_of_cons in Hc as [Hx Hs].
    destruct (N.eqb_spec c x) as [->|_]; [done|]. simpl.
    by rewrite IH.
Qed.

Lemma rindex_of_char_app c pre post :
  c ∉ post → Str.rindex_of [c] (pre ++ c :: post) = Some (length pre).
Proof.
  intros Hc. induction pre as [|x pre IH]; simpl.
  - rewrite rindex_of_char_None by done. by rewrite N.eqb_refl.
  - by rewrite IH.
Qed.

Lemma find_char_None c s : c ∉ s → Str.find s [c] = (-1)%Z.
Proof. intros H. unfold Str.find. by rewrite index_of_char_None. Qed.

Lemma rfind_char_None c s : c ∉ s → Str.rfind s [c] = (-1)%Z.
Proof. intros H. unfold Str.rfind. by rewrite rindex_of_char_None. Qed.

(** [s[-1:0]] is empty, whatever [s]. *)
Lemma slice_minus_one_zero s : Str.slice s (-1) 0 = [].
Proof.
  unfold Str.slice, Str.clamp. simpl.
  replace (Z.to_nat _) with 0 at 1; [done|]. lia.
Qed.

(** [(pre + mid + post)[len(pre) : len(pre) + len(mid)]] is [mid]. *)
Lemma slice_middle pre mid post :
  Str.slice (pre ++ mid ++ post) (Z.of_nat (length pre))
            (Z.of_nat (length pre + length mid)) = mid.
Proof.
  unfold Str.slice, Str.clamp. rewrite !length_app.
  destruct (Z.ltb_spec (Z.of_nat (length pre)) 0); [lia|].
  destruct (Z.ltb_spec (Z.of_nat (length pre + length mid)) 0); [lia|].
  rewrite !Z.min_l by lia.
  replace (Z.to_nat (Z.of_nat (length pre))) with (length pre) by lia.
  replace (Z.to_nat _) with (length mid) by lia.
  rewrite drop_app_length. by rewrite take_app_length.
Qed.

End char_facts.

Lemma index_of_char_inv (c : N) (s : str) :
  Str.index_of [c] s = None → c ∉ s.
Proof.
  induction s as [|x s IH]; intros H; [apply not_elem_of_nil|].
  simpl in H. destruct (N.eqb_spec c x) as [->|Hne]; [done|].
  simpl in H. destruct (Str.index_of [c] s); [done|].
  apply not_elem_of_cons. split; [done|]. by apply IH.
Qed.

Lemma contains_char_false (c : N) (s : str) :
  Str.contains [c] s = false ↔ c ∉ s.
Proof.
  unfold Str.contains. split.
  - intros H. apply index_of_char_inv.
    by destruct (Str.index_of [c] s).
  - intros H. by rewrite index_of_char_None.
Qed.

Lemma contains_false pat s :
  Str.contains pat s = false ↔ Str.index_of pat s = None.
Proof. unfold Str.contains. by destruct (Str.index_of pat s). Qed.

(** ** Occurrences in a prefix *)

Section prefix_facts.
Implicit Types pat s : str.

Lemma startswith_take pat s k :
  Str.startswith pat (take k s) = true → Str.startswith pat s = true.
Proof.
  intros [r Hr]%startswith_spec. apply startswith_spec.
  exists (r ++ drop k s). rewrite app_assoc, <- Hr.
  by rewrite take_drop.
Qed.

Lemma startswith_take_enough pat s k :
  length pat ≤ k →
  Str.startswith pat s = true → Str.startswith pat (take k s) = true.
Proof.
  intros Hk [r ->]%startswith_spec. apply startswith_spec.
  exists (take (k - length pat) r).
  by rewrite take_app_ge by done.
Qed.

Lemma drop_take_le s j p :
  j ≤ p → drop j (take p s) = take (p - j) (drop j s).
Proof.
  intros Hj. rewrite take_drop_commute. do 2 f_equal. lia.
Qed.

Lemma startswith_drop_take pat s j p :
  pat ≠ [] →
  Str.startswith pat (drop j (take p s)) = true →
  Str.startswith pat (drop j s) = true.
Proof.
  intros Hne H. destruct (decide (j ≤ p)) as [Hj|Hj].
  - rewrite drop_take_le in H by done. by eapply startswith_take.
  - rewrite drop_ge in H by (rewrite length_take; lia).
    by rewrite startswith_nil in H.
Qed.

Lemma index_of_take_None pat s p :
  pat ≠ [] → Str.index_of pat s = Some p →
  Str.index_of pat (take p s) = None.
Proof.
  intros Hne [_ Hmin]%index_of_Some. apply index_of_None. intros j.
  destruct (Str.startswith pat (drop j (take p s))) eqn:E; [|done].
  destruct (decide (j < p)) as [Hj|Hj].
  - apply startswith_drop_take in E; [|done]. by rewrite Hmin in E.
  - rewrite drop_ge in E by (rewrite length_take; lia).
    by rewrite startswith_nil in E.
Qed.

Lemma index_of_take_Some pat s p q :
  pat ≠ [] → Str.index_of pat s = Some p → p + length pat ≤ q →
  Str.index_of pat (take q s) = Some p.
Proof.
  intros Hne [Hp Hmin]%index_of_Some Hq. apply index_of_Some. split.
  - rewrite drop_take_le by lia.
    apply startswith_take_enough; [lia|done].
  - intros j Hj.
    destruct (Str.startswith pat (drop j (take q s))) eqn:E; [|done].
    apply startswith_drop_take in E; [|done]. by rewrite Hmin in E.
Qed.

(** An occurrence of [pat ++ more] is an occurrence of [pat]. *)
Lemma index_of_longer pat more s q :
  Str.index_of (pat ++ more) s = Some q →
  ∃ p, Str.index_of pat s = Some p ∧ p ≤ q.
Proof.
  intros [Hq _]%index_of_Some.
  assert (Str.startswith pat (drop q s) = true) as Hq'.
  { apply startswith_spec in Hq as [r Hr]. apply startswith_spec.
    exists (more ++ r). by rewrite app_assoc. }
  destruct (Str.index_of pat s) as [p|] eqn:Ep.
  - exists p. split; [done|]. apply index_of_Some in Ep as [_ Hmin].
    destruct (decide (p ≤ q)); [done|].
    rewrite Hmin in Hq' by lia. done.
  - pose proof (proj1 (index_of_None pat s) Ep q) as Hn.
    by rewrite Hn in Hq'.
Qed.

End prefix_facts.

(** The content of a fenced block: what lies between the first fence and
    the first [```] after it, provided no second fence starts one or two
    characters after that [```]. *)
Lemma cut_fenced_content rest p :
  Str.index_of ticks rest = Some p →
  (∀ q, Str.index_of fence rest = Some q → q = p ∨ p + 3 ≤ q) →
  cut_before ticks (cut_before fence rest) = take p rest.
Proof.
  intros Hp Hq. unfold cut_before at 2.
  destruct (Str.index_of fence rest) as [q|] eqn:Eq.
  - destruct (Hq q eq_refl) as [->|Hge].
    + unfold cut_before.
      by rewrite (index_of_take_None ticks rest p ticks_ne Hp).
    + unfold cut_before.
      rewrite (index_of_take_Some ticks rest p q ticks_ne Hp Hge).
      rewrite take_take. f_equal. lia.
  - unfold cut_before. by rewrite Hp.
Qed.

Lemma py_lbrace : py "{" = [123%N].
Proof. reflexivity. Qed.

Lemma py_rbrace : py "}" = [125%N].
Proof. reflexivity. Qed.

Lemma parse_reply_text text more :
  parse_reply (Message (text :: more)) =
  (text' ← extract_json text; Json.loads text').
Proof. reflexivity. Qed.

(** A supporting fact for C2: with no second fence starting one or two
    characters after the closing [```], the extraction selects exactly
    the content of the first fenced block. *)
Lemma extract_json_fenced_content (pre content post : str) :
  Str.index_of fence (pre ++ fence ++ content ++ ticks ++ post)
    = Some (length pre) →
  Str.index_of ticks (content ++ ticks ++ post) = Some (length content) →
  (∀ q, Str.index_of fence (content ++ ticks ++ post) = Some q →
        q = length content ∨ length content + 3 ≤ q) →
  extract_json (pre ++ fence ++ content ++ ticks ++ post) = Ok content.
Proof.
  intros Hf Ht Hq. rewrite (extract_json_fenced _ _ Hf).
  rewrite (app_assoc pre fence).
  rewrite drop_app_length' by (by rewrite length_app).
  rewrite (cut_fenced_content _ _ Ht Hq).
  by rewrite take_app_length.
Qed.

(** C2, at the input where the code departs from it: the reply opens a
    block with the fence, its content [{}] ends at the next [```], and
    that content is a JSON object; but the program hands [{}`] to the
    decoder, which refuses it, because the text after the closing marker
    starts a second fence one character later. *)
Lemma fenced_reply_overlapping_marker :
  Str.index_of fence reply_overlap = Some 0 ∧
  Str.index_of ticks (drop (length fence) reply_overlap) = Some 2 ∧
  take 2 (drop (length fence) reply_overlap) = py "{}" ∧
  Json.loads (py "{}") = Ok (JObj []) ∧
  extract_json reply_overlap = Ok (py "{}`") ∧
  parse_reply (Message [reply_overlap]) = Raise JSONDecodeError.
Proof. by vm_compute. Qed.

(** C3 as stated fails: a reply without a fence that contains a
    well-formed object, [{"a": 1}], after prose with braces; the slice
    from the first [{] to the last [}] is the whole reply, and the decoder
    refuses it. *)
Lemma unfenced_reply_with_prose_braces :
  Str.contains fence reply_prose_braces = false ∧
  reply_prose_braces = pyq "{x} " ++ pyq "{'a': 1}" ++ [] ∧
  Json.loads (pyq "{'a': 1}") = Ok (JObj [(py "a", JNum (py "1"))]) ∧
  extract_json reply_prose_braces = Ok reply_prose_braces ∧
  parse_reply (Message [reply_prose_braces]) = Raise JSONDecodeError.
Proof. by vm_compute. Qed.

(** C3, amended: in a reply without a fence, made of an object text
    between prose that has no [{] before it and no [}] after it, the
    first [{] and the last [}] are those of the object, the extraction
    selects exactly the object text, and the result of the generator is
    the result of decoding it. *)
Theorem extract_json_embedded_object (pre mid post : str) (more : list str) :
  Str.contains fence (pre ++ braced mid ++ post) = false →
  123%N ∉ pre →
  125%N ∉ post →
  Str.find (pre ++ braced mid ++ post) (py "{") = Z.of_nat (length pre) ∧
  Str.rfind (pre ++ braced mid ++ post) (py "}")
    = Z.of_nat (length pre + length (braced mid) - 1) ∧
  extract_json (pre ++ braced mid ++ post) = Ok (braced mid) ∧
  parse_reply (Message ((pre ++ braced mid ++ post) :: more))
    = Json.loads (braced mid).
Proof.
  intros Hf Hpre Hpost.
  apply contains_false in Hf.
  assert (Str.find (pre ++ braced mid ++ post) (py "{")
          = Z.of_nat (length pre)) as Hfind.
  { unfold Str.find, braced. rewrite py_lbrace. simpl.
    by rewrite index_of_char_app. }
  assert (Str.rfind (pre ++ braced mid ++ post) (py "}")
          = Z.of_nat (length pre + length (braced mid) - 1)) as Hrfind.
  { unfold Str.rfind, braced. rewrite py_lbrace, !py_rbrace.
    replace (pre ++ ([123%N] ++ mid ++ [125%N]) ++ post)
      with ((pre ++ 123%N :: mid) ++ 125%N :: post)
      by (by rewrite <- !app_assoc).
    rewrite rindex_of_char_app by done.
    f_equal. rewrite !length_app. simpl. lia. }
  assert (extract_json (pre ++ braced mid ++ post) = Ok (braced mid)) as He.
  { rewrite extract_json_unfenced by done. rewrite Hfind, Hrfind.
    assert (0 < length (braced mid)).
    { unfold braced. rewrite !length_app. simpl. lia. }
    replace (Z.of_nat (length pre + length (braced mid) - 1) + 1)%Z
      with (Z.of_nat (length pre + length (braced mid))) by lia.
    by rewrite slice_middle. }
  repeat split; [done..|].
  rewrite parse_reply_text, He. done.
Qed.

Lemma extract_json_embedded_object_witness :
  extract_json reply_embedded = Ok (pyq "{'a': 1}") ∧
  parse_reply (Message [reply_embedded])
    = Ok (JObj [(py "a", JNum (py "1"))]).
Proof.
  destruct (extract_json_embedded_object
              (py "Here it is: ") (pyq "'a': 1") (py " Done.") [])
    as (_ & _ & He & Hp).
  - reflexivity.
  - apply (bool_decide_unpack _). vm_compute. exact I.
  - apply (bool_decide_unpack _). vm_compute. exact I.
  - split; [exact He|]. etrans; [exact Hp|]. vm_compute. reflexivity.
Defined.

(** C10: the extraction never fails, whatever the reply; and for a reply
    with no fence, no [{] and no [}], both searches give -1, the slice
    [text[-1:0]] is the empty text, and decoding it raises a decode
    error. *)
Theorem extract_json_total_no_delimiters (text : str) (more : list str) :
  (∃ s, extract_json text = Ok s) ∧
  (Str.contains fence text = false →
   Str.contains (py "{") text = false →
   Str.contains (py "}") text = false →
   Str.find text (py "{") = (-1)%Z ∧
   Str.rfind text (py "}") = (-1)%Z ∧
   extract_json text = Ok [] ∧
   parse_reply (Message (text :: more)) = Raise JSONDecodeError).
Proof.
  split; [apply extract_json_total|].
  intros Hf Hl Hr. apply contains_false in Hf.
  rewrite py_lbrace in *. rewrite py_rbrace in *.
  apply contains_char_false in Hl, Hr.
  assert (extract_json text = Ok []) as He.
  { rewrite extract_json_unfenced by done.
    rewrite py_lbrace, py_rbrace.
    rewrite find_char_None, rfind_char_None by done.
    by rewrite slice_minus_one_zero. }
  rewrite find_char_None, rfind_char_None by done.
  repeat split; [done|].
  by rewrite parse_reply_text, He.
Qed.

Lemma extract_json_total_no_delimiters_witness :
  extract_json (py "Sorry, I cannot help.") = Ok [] ∧
  parse_reply (Message [py "Sorry, I cannot help."]) = Raise JSONDecodeError.
Proof.
  destruct (extract_json_total_no_delimiters
              (py "Sorry, I cannot help.") []) as [_ H].
  destruct H as (_ & _ & He & Hp); [reflexivity..|].
  split; [exact He|exact Hp].
Defined.

(** ** Effects *)

Section io_facts.
Context {A B : Type}.

Lemma outcome_bind (m : io A) (f : A → io B) :
  outcome (m ≫= f) =
  match outcome m with
  | Ok a => outcome (f a)
  | Raise e => Raise e
  end.
Proof. unfold mbind, io_bind. by destruct (outcome m). Qed.

Lemma trace_bind (m : io A) (f : A → io B) :
  trace (m ≫= f) =
  match outcome m with
  | Ok a => trace m ++ trace (f a)
  | Raise _ => trace m
  end.
Proof. unfold mbind, io_bind. by destruct (outcome m). Qed.

Lemma bind_run_ok (t : list event) (a : A) (f : A → io B) :
  (Run t (Ok a) ≫= f) = Run (t ++ trace (f a)) (outcome (f a)).
Proof. reflexivity. Qed.

Lemma bind_run_raise (t : list event) (e : exn) (f : A → io B) :
  (Run t (Raise e) ≫= f) = Run t (Raise e).
Proof. reflexivity. Qed.

Lemma io_eta (m : io A) : m = Run (trace m) (outcome m).
Proof. by destruct m. Qed.

End io_facts.

(** ** The news fetcher *)

Section fetch_facts.
Implicit Types (st : store) (run : list (str * search_outcome)).
Implicit Types (l : list str) (u : str).

(** *** What one query and a whole run do *)

Lemma search_run k st qo :
  search k st qo =
  Run (SearchRequest k qo.1 ::
         match search_error st qo.2 with
         | Some e => [Print (LSearchError e)]
         | None => []
         end)
      (Ok (store_after st qo.2)).
Proof.
  unfold search, search_error, store_after.
  destruct (search_results qo.2) as [items|e]; [|done].
  by destruct (visit_all items st) as [st' [e|]].
Qed.

Lemma fetch_loop_cons k qo run st :
  fetch_loop k (qo :: run) st = (search k st qo ≫= fetch_loop k run).
Proof. reflexivity. Qed.

Lemma fetch_loop_outcome k run st :
  outcome (fetch_loop k run st) = Ok (foldl store_after st (run.*2)).
Proof.
  revert st. induction run as [|qo run IH]; intros st; [done|].
  rewrite fetch_loop_cons, outcome_bind, search_run. simpl. apply IH.
Qed.

Lemma fetch_news_with_key env run c k :
  env !! TAVILY_API_KEY = Some (c :: k) →
  fetch_news env run =
  Run (trace (fetch_loop (c :: k) run {| all_news := []; seen := ∅ |}))
      (Ok (take 10 (all_news
             (foldl store_after {| all_news := []; seen := ∅ |} (run.*2))))).
Proof.
  intros Hk. unfold fetch_news. rewrite Hk.
  rewrite (io_eta (fetch_loop _ _ _)), fetch_loop_outcome.
  rewrite bind_run_ok. simpl. by rewrite app_nil_r.
Qed.

Lemma fetch_news_without_key env run :
  env !! TAVILY_API_KEY = None ∨ env !! TAVILY_API_KEY = Some [] →
  fetch_news env run = Run [] (Raise (ValueError (py "TAVILY_API_KEY not set"))).
Proof. unfold fetch_news. by intros [-> | ->]. Qed.

Lemma fetch_news_inv env run tr out :
  fetch_news env run = Run tr (Ok out) →
  ∃ c k, env !! TAVILY_API_KEY = Some (c :: k) ∧
    tr = trace (fetch_loop (c :: k) run {| all_news := []; seen := ∅ |}) ∧
    out = take 10 (all_news
            (foldl store_after {| all_news := []; seen := ∅ |} (run.*2))).
Proof.
  destruct (env !! TAVILY_API_KEY) as [[|c k]|] eqn:Hk.
  - rewrite fetch_news_without_key by auto. done.
  - rewrite (fetch_news_with_key _ _ _ _ Hk). intros [= <- <-]. eauto.
  - rewrite fetch_news_without_key by auto. done.
Qed.

(** *** Failing requests *)

Lemma request_fails_iff o :
  request_fails o ↔ ∃ e, search_results o = Raise e.
Proof.
  destruct o as [e|status body]; simpl.
  - split; eauto.
  - unfold raise_for_status. case_decide as Hs; simpl.
    + split; eauto.
    + destruct body as [|results]; simpl.
      * split; eauto.
      * split; [intros [?|?]; done|intros [e ?]; done].
Qed.

Lemma store_after_fails st o : request_fails o → store_after st o = st.
Proof.
  intros [e He]%request_fails_iff. unfold store_after. by rewrite He.
Qed.

Lemma foldl_store_after_filter run st :
  foldl store_after st ((filter (λ qo, ¬ request_fails qo.2) run).*2) =
  foldl store_after st (run.*2).
Proof.
  revert st. induction run as [|qo run IH]; intros st; [done|].
  rewrite filter_cons. case_decide as Hf; simpl.
  - apply IH.
  - simpl. rewrite store_after_fails; [apply IH|].
    by destruct (decide (request_fails qo.2)).
Qed.

(** When every request fails or finds nothing, the list is empty. *)
Lemma fetch_news_nothing env run c k :
  env !! TAVILY_API_KEY = Some (c :: k) →
  Forall (λ qo, request_fails qo.2 ∨ search_results qo.2 = Ok []) run →
  outcome (fetch_news env run) = Ok [].
Proof.
  intros Hk Hrun. rewrite (fetch_news_with_key _ _ _ _ Hk). simpl.
  assert (∀ st, foldl store_after st (run.*2) = st) as ->; [|done].
  induction Hrun as [|qo run Hqo _ IH]; intros st; [done|].
  simpl. rewrite <- (IH st) at 2. f_equal.
  destruct Hqo as [Hf|Hz]; [by apply store_after_fails|].
  unfold store_after. by rewrite Hz.
Qed.

Lemma fetch_loop_logs k run st q o e :
  (q, o) ∈ run → search_results o = Raise e →
  Print (LSearchError e) ∈ trace (fetch_loop k run st).
Proof.
  intros Hin He. revert st.
  induction run as [|qo run IH]; intros st; [by apply elem_of_nil in Hin|].
  rewrite fetch_loop_cons, trace_bind, search_run. simpl.
  apply elem_of_cons in Hin as [<-|Hin].
  - unfold search_error. simpl. rewrite He. set_solver.
  - apply elem_of_cons. right. apply elem_of_app. right. by apply IH.
Qed.

Lemma fetch_loop_requests k run st :
  requests_of (trace (fetch_loop k run st)) = run.*1.
Proof.
  revert st. induction run as [|qo run IH]; intros st; [done|].
  rewrite fetch_loop_cons, trace_bind, search_run. simpl.
  unfold requests_of in *. simpl. f_equal.
  rewrite omap_app, IH.
  by destruct (search_error st qo.2).
Qed.

End fetch_facts.

(** *** Discovery order *)

Section discovery.
Implicit Types (st : store) (l : list str) (u : str).

Lemma first_seen_lt u l : u ∈ l → first_seen u l < length l.
Proof.
  induction l as [|x l IH]; intros Hu; [by apply elem_of_nil in Hu|].
  simpl. case_decide as Hx; [lia|].
  apply elem_of_cons in Hu as [->|Hu]; [done|].
  specialize (IH Hu). lia.
Qed.

Lemma first_seen_app_l u l l' :
  u ∈ l → first_seen u (l ++ l') = first_seen u l.
Proof.
  induction l as [|x l IH]; intros Hu; [by apply elem_of_nil in Hu|].
  simpl. case_decide as Hx; [done|].
  apply elem_of_cons in Hu as [->|Hu]; [done|].
  by rewrite IH.
Qed.

Lemma first_seen_app_r u l l' :
  u ∉ l → first_seen u (l ++ l') = length l + first_seen u l'.
Proof.
  induction l as [|x l IH]; intros Hu; [done|].
  apply not_elem_of_cons in Hu as [Hx Hu].
  simpl. case_decide; [congruence|]. by rewrite IH.
Qed.

Lemma first_seen_new u l : u ∉ l → first_seen u (l ++ [u]) = length l.
Proof.
  intros Hu. rewrite first_seen_app_r by done. simpl.
  case_decide; [lia|done].
Qed.

Lemma fetch_inv_init : fetch_inv {| all_news := []; seen := ∅ |} [].
Proof.
  unfold fetch_inv, urls_of, discovery_ordered. simpl.
  split_and!; [set_solver|set_solver|constructor|].
  intros i j a b Hi. by rewrite lookup_nil in Hi.
Qed.

(** An item whose url was met before changes nothing. *)
Lemma fetch_inv_seen st l u :
  fetch_inv st l → u ∈ seen st → fetch_inv st (l ++ [u]).
Proof.
  intros (Hs & Hu & Hnd & Hord) Hin.
  assert (u ∈ l) as Hl by (by apply Hs).
  split_and!; [| |done|].
  { intros v. rewrite elem_of_app, list_elem_of_singleton, Hs.
    split; [auto|]. by intros [?| ->]. }
  { intros v. rewrite elem_of_app, list_elem_of_singleton, Hu.
    split; [auto|]. by intros [?| ->]. }
  intros i j a b Ha Hb Hij.
  assert (a ∈ l) by (apply Hu; by eapply list_elem_of_lookup_2).
  assert (b ∈ l) by (apply Hu; by eapply list_elem_of_lookup_2).
  rewrite !first_seen_app_l by done. by eapply Hord.
Qed.

(** An item whose url is new goes to the end of the list. *)
Lemma fetch_inv_new st l u t c :
  fetch_inv st l → u ∉ seen st →
  fetch_inv {| all_news := all_news st ++
                 [ {| title := t; summary := c; url := u |} ];
               seen := {[u]} ∪ seen st |} (l ++ [u]).
Proof.
  intros (Hs & Hu & Hnd & Hord) Hin.
  assert (u ∉ l) as Hl by (by rewrite <- Hs).
  unfold fetch_inv, urls_of in *. simpl. rewrite fmap_app. simpl.
  split_and!.
  - intros v. rewrite elem_of_union, elem_of_singleton, elem_of_app.
    rewrite Hs, list_elem_of_singleton. tauto.
  - intros v. by rewrite !elem_of_app, Hu.
  - apply NoDup_app. split_and!; [done| |apply NoDup_singleton].
    intros v Hv ->%list_elem_of_singleton. apply Hl. by apply Hu.
  - intros i j a b Ha Hb Hij.
    assert (i < length (url <$> all_news st)) as Hi.
    { apply lookup_lt_Some in Hb. rewrite length_app in Hb.
      simpl in Hb. lia. }
    rewrite lookup_app_l in Ha by done.
    assert (a ∈ l) by (apply Hu; by eapply list_elem_of_lookup_2).
    rewrite (first_seen_app_l a) by done.
    destruct (decide (j < length (url <$> all_news st))) as [Hj|Hj].
    + rewrite lookup_app_l in Hb by done.
      assert (b ∈ l) by (apply Hu; by eapply list_elem_of_lookup_2).
      rewrite (first_seen_app_l b) by done. by eapply Hord.
    + rewrite lookup_app_r in Hb by lia.
      apply list_lookup_singleton_Some in Hb as [_ <-].
      rewrite first_seen_new by done. by apply first_seen_lt.
Qed.

(** When every item has a url, all of them are read. *)
Lemma urls_read_all items :
  Forall (λ it : item, is_Some (it !! py "url")) items →
  urls_read items = omap (λ it : item, it !! py "url") items.
Proof.
  induction 1 as [|it items [u Hu] _ IH]; [done|].
  simpl. rewrite Hu. by rewrite IH.
Qed.

Lemma visit_all_inv items st l :
  fetch_inv st l → fetch_inv (visit_all items st).1 (l ++ urls_read items).
Proof.
  revert st l. induction items as [|it items IH]; intros st l Hinv; simpl.
  - by rewrite app_nil_r.
  - unfold visit. destruct (it !! py "url") as [u|] eqn:Hu; simpl.
    + rewrite (cons_middle u), app_assoc.
      case_decide as Hseen.
      * apply IH. by apply fetch_inv_seen.
      * apply IH. by apply fetch_inv_new.
    + by rewrite app_nil_r.
Qed.

Lemma store_after_inv run st l :
  fetch_inv st l →
  fetch_inv (foldl store_after st (run.*2)) (l ++ url_stream run).
Proof.
  revert st l. induction run as [|qo run IH]; intros st l Hinv; simpl.
  - by rewrite app_nil_r.
  - unfold store_after at 2.
    destruct (search_results qo.2) as [items|e].
    + rewrite app_assoc. apply IH. by apply visit_all_inv.
    + by apply IH.
Qed.

End discovery.

(** ** The claims on [fetch_news] *)

(** C1: the list that [fetch_news] returns has each url at most once and
    at most 10 items, its urls are urls of the responses, and it is in
    discovery order: an item is before another exactly when its url was
    first met earlier, going through the queries in the given order and
    through the results of a response in their order. *)
Theorem fetch_news_unique_bounded_ordered
    (env : gmap str str) (run : list (str * search_outcome))
    (tr : list event) (out : list news_item) :
  fetch_news env run = Run tr (Ok out) →
  NoDup (url <$> out) ∧
  length out ≤ 10 ∧
  (∀ a, a ∈ out → url a ∈ url_stream run) ∧
  (∀ i j a b, out !! i = Some a → out !! j = Some b →
     (i < j ↔ first_seen (url a) (url_stream run)
              < first_seen (url b) (url_stream run))).
Proof.
  intros (c & k & _ & _ & ->)%fetch_news_inv.
  pose proof (store_after_inv run _ [] fetch_inv_init) as Hinv.
  simpl in Hinv. destruct Hinv as (_ & Hu & Hnd & Hord).
  set (st := foldl store_after _ _) in *.
  assert (∀ i a, take 10 (all_news st) !! i = Some a →
                 urls_of st !! i = Some (url a)) as Hlook.
  { intros i a [Ha _]%lookup_take_Some.
    unfold urls_of. by rewrite list_lookup_fmap, Ha. }
  split_and!.
  - rewrite fmap_take. eapply sublist_NoDup; [done|apply sublist_take].
  - rewrite length_take. lia.
  - intros a Ha. apply Hu. apply list_elem_of_lookup in Ha as [i Hi].
    eapply list_elem_of_lookup_2. by apply Hlook.
  - intros i j a b Ha%Hlook Hb%Hlook. split.
    + intros Hij. by eapply Hord.
    + intros Hlt. destruct (decide (i < j)) as [|Hge]; [done|].
      destruct (decide (i = j)) as [->|Hne].
      * rewrite Ha in Hb. injection Hb as Hb. rewrite Hb in Hlt. lia.
      * assert (j < i) as Hji by lia.
        pose proof (Hord _ _ _ _ Hb Ha Hji). lia.
Qed.

Lemma fetch_news_unique_bounded_ordered_witness :
  NoDup (url <$> news_sample) ∧
  length news_sample ≤ 10 ∧
  (∀ a, a ∈ news_sample → url a ∈ url_stream run_sample) ∧
  (∀ i j a b, news_sample !! i = Some a → news_sample !! j = Some b →
     (i < j ↔ first_seen (url a) (url_stream run_sample)
              < first_seen (url b) (url_stream run_sample))).
Proof.
  apply (fetch_news_unique_bounded_ordered env_key run_sample
           (trace (fetch_news env_key run_sample)) news_sample).
  vm_compute. reflexivity.
Defined.

(** C7 as stated fails: a response whose status is not 2xx is not always
    a failure for the program.  The only query of this run is answered
    with status 302; nothing is logged, and its result is returned,
    whereas the queries with a 2xx status give no item at all. *)
Lemma redirect_response_is_collected :
  Forall (λ qo, not_2xx qo.2) run_redirect ∧
  fetch_news env_key run_redirect =
    Run [SearchRequest (py "tvly-1") (py "q1")]
        (Ok [ {| title := py "A"; summary := py "aa";
                 url := py "https://a" |} ]) ∧
  outcome (fetch_news env_key
             (filter (λ qo, ¬ not_2xx qo.2) run_redirect)) = Ok [].
Proof.
  split; [|by vm_compute].
  repeat constructor. simpl. lia.
Qed.

(** C7, amended: a request fails when [requests.post] raises, when the
    status is 4xx or 5xx, or when the body is not JSON.  Whatever the
    outcomes, [fetch_news] sends a request for every query, in order;
    it logs the exception of each failing request; and it returns
    exactly what it returns for the queries whose requests do not
    fail. *)
Theorem fetch_news_skips_failed_requests
    (env : gmap str str) (run : list (str * search_outcome))
    (tr : list event) (out : list news_item) :
  fetch_news env run = Run tr (Ok out) →
  outcome (fetch_news env (filter (λ qo, ¬ request_fails qo.2) run))
    = Ok out ∧
  (∀ q o, (q, o) ∈ run → request_fails o →
     ∃ e, search_results o = Raise e ∧ Print (LSearchError e) ∈ tr) ∧
  requests_of tr = run.*1.
Proof.
  intros (c & k & Hk & -> & ->)%fetch_news_inv. split_and!.
  - rewrite (fetch_news_with_key _ _ _ _ Hk). simpl.
    by rewrite foldl_store_after_filter.
  - intros q o Hin [e He]%request_fails_iff. exists e. split; [done|].
    by eapply fetch_loop_logs.
  - apply fetch_loop_requests.
Qed.

Lemma fetch_news_skips_failed_requests_witness :
  outcome (fetch_news env_key
             (filter (λ qo, ¬ request_fails qo.2) run_sample))
    = Ok news_sample ∧
  (∀ q o, (q, o) ∈ run_sample → request_fails o →
     ∃ e, search_results o = Raise e ∧
          Print (LSearchError e) ∈ trace (fetch_news env_key run_sample)) ∧
  requests_of (trace (fetch_news env_key run_sample)) = run_sample.*1.
Proof.
  apply (fetch_news_skips_failed_requests env_key run_sample
           (trace (fetch_news env_key run_sample)) news_sample).
  vm_compute. reflexivity.
Defined.

(** C9 as stated fails: the key can be present and the run still be
    aborted, when its value is the empty text. *)
Lemma empty_key_is_fatal :
  env_empty_key !! TAVILY_API_KEY = Some [] ∧
  fetch_news env_empty_key run_sample =
    Run [] (Raise (ValueError (py "TAVILY_API_KEY not set"))).
Proof. by vm_compute. Qed.

(** C9, amended: if the key is absent from the environment, or empty,
    [fetch_news] raises before any event (no search request is sent);
    if it is present and not empty, [fetch_news] returns a list, whatever
    the outcomes of the requests. *)
Theorem fetch_news_key_guard
    (env : gmap str str) (run : list (str * search_outcome)) :
  (env !! TAVILY_API_KEY = None ∨ env !! TAVILY_API_KEY = Some [] →
   fetch_news env run =
     Run [] (Raise (ValueError (py "TAVILY_API_KEY not set")))) ∧
  (∀ k, env !! TAVILY_API_KEY = Some k → k ≠ [] →
   ∃ tr out, fetch_news env run = Run tr (Ok out)).
Proof.
  split; [apply fetch_news_without_key|].
  intros [|c k] Hk Hne; [done|].
  rewrite (fetch_news_with_key _ _ _ _ Hk). eauto.
Qed.

Lemma fetch_news_key_guard_witness :
  fetch_news ∅ run_sample =
    Run [] (Raise (ValueError (py "TAVILY_API_KEY not set"))) ∧
  ∃ tr out, fetch_news env_key run_sample = Run tr (Ok out).
Proof.
  split.
  - apply (fetch_news_key_guard ∅ run_sample). left. reflexivity.
  - apply (fetch_news_key_guard env_key run_sample) with (py "tvly-1").
    + reflexivity.
    + discriminate.
Defined.

(** The scenario of fifteen distinct results: the first ten, in query
    order. *)
Example fetch_news_fifteen :
  outcome (fetch_news env_key run_fifteen) = Ok news_ten.
Proof. vm_compute. reflexivity. Qed.


(** ** The time stamp *)

Section stamp_facts.
Local Open Scope N_scope.

(** Division by a constant, for [lia]. *)
#[local] Ltac Zify.zify_post_hook ::= Z.to_euclidean_division_equations.

Lemma size_nat_pos n : 0 < n → (0 < N.size_nat n)%nat.
Proof. destruct n as [|[p|p|]]; simpl; lia. Qed.

Lemma size_nat_1000 n : 1000 ≤ n → (3 < N.size_nat n)%nat.
Proof.
  destruct n as [|p]; [lia|]. intros H. simpl.
  destruct p as [p|p|]; [| |lia];
    (destruct p as [p|p|]; [| |lia]);
    (destruct p as [p|p|]; [| |lia]);
    (destruct p as [p|p|]; [| |lia]); simpl; lia.
Qed.

Lemma decimal_four n :
  1000 ≤ n ≤ 9999 →
  decimal n = [digit (n / 1000); digit (n / 100); digit (n / 10); digit n].
Proof.
  intros Hn. unfold decimal.
  pose proof (size_nat_1000 n ltac:(lia)) as Hs.
  destruct (N.size_nat n) as [|[|[|[|f]]]]; try lia.
  assert (n / 10 / 10 = n / 100) as E2 by (by rewrite N.Div0.div_div).
  assert (n / 100 / 10 = n / 1000) as E3 by (by rewrite N.Div0.div_div).
  cbn [decimal_go].
  destruct (N.eqb_spec (n / 10) 0) as [E|_]; [lia|].
  rewrite E2.
  destruct (N.eqb_spec (n / 100) 0) as [E|_]; [lia|].
  rewrite E3.
  destruct (N.eqb_spec (n / 1000) 0) as [E|_]; [lia|].
  destruct (N.eqb_spec (n / 1000 / 10) 0) as [_|E]; [done|].
  rewrite N.Div0.div_div in E. lia.
Qed.

Lemma zero_padded_two n :
  n < 100 → zero_padded 2 n = [digit (n / 10); digit n].
Proof.
  intros Hn. unfold zero_padded, decimal.
  destruct (N.eqb_spec (n / 10) 0) as [E|E].
  - cbn [decimal_go]. rewrite E. simpl. done.
  - pose proof (size_nat_pos n ltac:(lia)) as Hs.
    destruct (N.size_nat n) as [|f]; [lia|].
    cbn [decimal_go].
    destruct (N.eqb_spec (n / 10) 0) as [|_]; [done|].
    destruct (N.eqb_spec (n / 10 / 10) 0) as [_|E']; [done|].
    rewrite N.Div0.div_div in E'. lia.
Qed.

(** For a four-digit year, the stamp is laid out [YYYY-MM-DD HH:MM:SS]. *)
Lemma strftime_iso d :
  datetime_valid d → 1000 ≤ year d →
  strftime timestamp_format d = iso_stamp d.
Proof.
  intros (Hy & Hm & Hd & Hh & Hmi & Hs) Hy'.
  change (strftime timestamp_format d) with
    (decimal (year d) ++ 45 :: zero_padded 2 (month d) ++
     45 :: zero_padded 2 (day d) ++ 32 :: zero_padded 2 (hour d) ++
     58 :: zero_padded 2 (minute d) ++ 58 :: zero_padded 2 (second d) ++ []).
  rewrite decimal_four by lia.
  by rewrite !zero_padded_two by lia.
Qed.

End stamp_facts.

(** ** The result publisher *)

Section publisher_facts.
Implicit Types (g : generation_result) (now : datetime).

Lemma post_text_typed g i :
  post_text (JArr (draft_json <$> gr_posts g)) i = Ok (JStr (draft_text g i)).
Proof.
  unfold post_text, draft_text. simpl. rewrite length_fmap.
  case_decide as Hi.
  - destruct (lookup_lt_is_Some_2 (gr_posts g) i Hi) as [p Hp].
    unfold item_at. rewrite list_lookup_fmap, Hp. reflexivity.
  - rewrite lookup_ge_None_2 by lia. reflexivity.
Qed.

(** The record built from a result of the typed shape. *)
Lemma build_record_typed now g :
  build_record now (result_json g) =
  Ok (list_to_map [
    (py "timestamp", JStr (strftime timestamp_format now));
    (py "selected_news", JStr (gr_selected_news g));
    (py "selected_news_url", JStr (gr_selected_news_url g));
    (py "reason", JStr (gr_reason g));
    (py "post1", JStr (draft_text g 0));
    (py "post2", JStr (draft_text g 1));
    (py "post3", JStr (draft_text g 2)) ]).
Proof.
  unfold build_record.
  change (get (result_json g) (py "posts") (JArr []))
    with (Ok (JArr (draft_json <$> gr_posts g))).
  change (get (result_json g) (py "selected_news") (JStr []))
    with (Ok (JStr (gr_selected_news g))).
  change (get (result_json g) (py "selected_news_url") (JStr []))
    with (Ok (JStr (gr_selected_news_url g))).
  change (get (result_json g) (py "reason") (JStr []))
    with (Ok (JStr (gr_reason g))).
  cbn [mbind res_bind].
  by rewrite !post_text_typed.
Qed.

(** What [send_to_spreadsheet] does once the record is built. *)
Lemma send_to_spreadsheet_run now webhook result data :
  build_record now result = Ok data →
  send_to_spreadsheet now webhook result =
  Run (PublishRequest data ::
         match webhook with
         | NoReply e => [Print (LSendError e)]
         | Reply _ text => [Print LSent; Print (LResponse text)]
         end)
      (Ok ()).
Proof.
  intros Hd. unfold send_to_spreadsheet. rewrite Hd.
  by destruct webhook.
Qed.

End publisher_facts.

(** C5: for a result of the typed shape and a time with a four-digit
    year, the record that [send_to_spreadsheet] builds and sends has
    exactly the seven keys; its timestamp is the time laid out
    [YYYY-MM-DD HH:MM:SS]; [selected_news], [selected_news_url] and
    [reason] are those of the result; and [post1], [post2], [post3] are
    the texts of the drafts at indices 0, 1, 2, the empty text where
    there is no such draft. *)
Theorem send_to_spreadsheet_record
    (now : datetime) (g : generation_result) (webhook : webhook_outcome) :
  datetime_valid now →
  (1000 ≤ year now)%N →
  ∃ data rest,
    build_record now (result_json g) = Ok data ∧
    trace (send_to_spreadsheet now webhook (result_json g))
      = PublishRequest data :: rest ∧
    dom data = list_to_set record_keys ∧
    data !! py "timestamp" = Some (JStr (iso_stamp now)) ∧
    data !! py "selected_news" = Some (JStr (gr_selected_news g)) ∧
    data !! py "selected_news_url" = Some (JStr (gr_selected_news_url g)) ∧
    data !! py "reason" = Some (JStr (gr_reason g)) ∧
    data !! py "post1" = Some (JStr (draft_text g 0)) ∧
    data !! py "post2" = Some (JStr (draft_text g 1)) ∧
    data !! py "post3" = Some (JStr (draft_text g 2)) ∧
    (∀ i, length (gr_posts g) ≤ i → draft_text g i = []).
Proof.
  intros Hv Hy.
  pose proof (build_record_typed now g) as Hb.
  rewrite (strftime_iso now Hv Hy) in Hb.
  eexists _, _. split; [exact Hb|].
  split; [by rewrite (send_to_spreadsheet_run _ _ _ _ Hb)|].
  split; [by rewrite dom_list_to_map_L|].
  split_and!; try reflexivity.
  intros i Hi. unfold draft_text. by rewrite lookup_ge_None_2.
Qed.

Lemma send_to_spreadsheet_record_witness :
  ∃ data rest,
    build_record now_sample (result_json result_sample) = Ok data ∧
    trace (send_to_spreadsheet now_sample (Reply 200 (py "ok"))
             (result_json result_sample))
      = PublishRequest data :: rest ∧
    dom data = list_to_set record_keys ∧
    data !! py "timestamp" = Some (JStr (py "2025-03-09 07:45:06")) ∧
    data !! py "post1" = Some (JStr (py "Post one https://a")) ∧
    data !! py "post2" = Some (JStr []) ∧
    data !! py "post3" = Some (JStr []).
Proof.
  destruct (send_to_spreadsheet_record now_sample result_sample
              (Reply 200 (py "ok")))
    as (data & rest & Hb & Ht & Hd & H0 & _ & _ & _ & H1 & H2 & H3 & _).
  - unfold datetime_valid. simpl. lia.
  - simpl. lia.
  - exists data, rest. repeat split; assumption.
Defined.

(** C6 as stated fails: a response with a status that is not 2xx is not
    logged as a failure.  For status 500 the program prints that the
    record was sent, and the body, exactly as for status 200. *)
Lemma server_error_reported_as_sent :
  send_to_spreadsheet now_sample (Reply 500 (py "Internal Server Error"))
    (result_json result_sample)
  = Run [ PublishRequest record_sample; Print LSent;
          Print (LResponse (py "Internal Server Error")) ] (Ok ()) ∧
  send_to_spreadsheet now_sample (Reply 200 (py "Internal Server Error"))
    (result_json result_sample)
  = send_to_spreadsheet now_sample (Reply 500 (py "Internal Server Error"))
      (result_json result_sample).
Proof.
  assert (build_record now_sample (result_json result_sample)
          = Ok record_sample) as Hb by (vm_compute; reflexivity).
  by rewrite !(send_to_spreadsheet_run _ _ _ _ Hb).
Qed.

(** C6, amended: once the record is built, [send_to_spreadsheet] returns
    normally for every outcome of the submission.  An exception raised by
    the request is logged as a send error; a response, whatever its
    status, is reported as sent, followed by its body. *)
Theorem send_to_spreadsheet_never_raises
    (now : datetime) (webhook : webhook_outcome) (result : json)
    (data : gmap str json) :
  build_record now result = Ok data →
  outcome (send_to_spreadsheet now webhook result) = Ok () ∧
  trace (send_to_spreadsheet now webhook result) =
    PublishRequest data ::
      match webhook with
      | NoReply e => [Print (LSendError e)]
      | Reply _ text => [Print LSent; Print (LResponse text)]
      end.
Proof.
  intros Hb. by rewrite (send_to_spreadsheet_run _ _ _ _ Hb).
Qed.

Lemma send_to_spreadsheet_never_raises_witness :
  outcome (send_to_spreadsheet now_sample
             (NoReply (RequestException (py "connection refused")))
             (result_json result_sample)) = Ok () ∧
  trace (send_to_spreadsheet now_sample
           (NoReply (RequestException (py "connection refused")))
           (result_json result_sample)) =
    [ PublishRequest record_sample;
      Print (LSendError (RequestException (py "connection refused"))) ].
Proof.
  apply (send_to_spreadsheet_never_raises now_sample
           (NoReply (RequestException (py "connection refused")))
           (result_json result_sample) record_sample).
  vm_compute. reflexivity.
Defined.

(** ** The pipeline *)

Section main_facts.
Implicit Types (w : world) (news : list news_item) (tr : list event).

Lemma for_each_print {A} (f : A → line) (l : list A) :
  for_each l (λ x, print (f x)) = Run ((λ x, Print (f x)) <$> l) (Ok ()).
Proof.
  induction l as [|x l IH]; [done|].
  simpl. rewrite IH. reflexivity.
Qed.

Lemma main_fetch_raises w tr e :
  fetch_news (environ w) (main_run w) = Run tr (Raise e) →
  main w = Run (header w ++ tr) (Raise e).
Proof. intros H. unfold main. rewrite H. reflexivity. Qed.

Lemma main_fetch_empty w tr :
  fetch_news (environ w) (main_run w) = Run tr (Ok []) →
  main w = Run (header w ++ tr ++ [Print (LFetched 0); Print LNoNews]) (Ok ()).
Proof. intros H. unfold main. rewrite H. reflexivity. Qed.

Lemma main_fetch_some w tr news :
  fetch_news (environ w) (main_run w) = Run tr (Ok news) → news ≠ [] →
  main w =
  Run (header w ++ tr ++ Print (LFetched (length news)) ::
         title_lines news ++ trace (generate_and_publish w news))
      (outcome (generate_and_publish w news)).
Proof.
  intros H Hne. unfold main. rewrite H.
  destruct news as [|n news]; [done|].
  cbn [mbind io_bind print emit trace outcome].
  rewrite (for_each_print (λ kn, LNewsTitle kn.1 (Str.upto 50 (title kn.2)))).
  reflexivity.
Qed.

Lemma generate_posts_run llm news :
  generate_posts llm news = Run [GenerateRequest news] (parse_reply llm).
Proof. reflexivity. Qed.

Lemma generate_and_publish_raises w news e :
  parse_reply (llm_service w) = Raise e →
  generate_and_publish w news =
  Run [Print LGenerating; GenerateRequest news] (Raise e).
Proof.
  intros H. unfold generate_and_publish.
  rewrite generate_posts_run, H. reflexivity.
Qed.

(** The fetcher only prints and searches. *)
Lemma fetch_loop_events k run st :
  Forall (λ ev, ¬ is_generate ev ∧ ¬ is_publish ev)
         (trace (fetch_loop k run st)).
Proof.
  revert st. induction run as [|qo run IH]; intros st; [constructor|].
  rewrite fetch_loop_cons, trace_bind, search_run. simpl.
  constructor; [by auto|]. apply Forall_app. split; [|apply IH].
  destruct (search_error st qo.2); repeat constructor; by auto.
Qed.

Lemma fetch_news_events env run :
  Forall (λ ev, ¬ is_generate ev ∧ ¬ is_publish ev)
         (trace (fetch_news env run)).
Proof.
  destruct (env !! TAVILY_API_KEY) as [[|c k]|] eqn:Hk.
  - rewrite fetch_news_without_key by auto. constructor.
  - rewrite (fetch_news_with_key _ _ _ _ Hk). apply fetch_loop_events.
  - rewrite fetch_news_without_key by auto. constructor.
Qed.

Lemma header_events w :
  Forall (λ ev, ¬ is_generate ev ∧ ¬ is_publish ev) (header w).
Proof. repeat constructor; by auto. Qed.

Lemma title_lines_events news :
  Forall (λ ev, ¬ is_generate ev ∧ ¬ is_publish ev) (title_lines news).
Proof. apply Forall_fmap, Forall_forall. intros x _. simpl. by auto. Qed.

Lemma outcome_bind_ext {A B} (m : io A) (f g : A → io B) :
  (∀ a, outcome (f a) = outcome (g a)) →
  outcome (m ≫= f) = outcome (m ≫= g).
Proof. intros H. rewrite !outcome_bind. by destruct (outcome m). Qed.

Lemma send_to_spreadsheet_outcome now webhook result :
  outcome (send_to_spreadsheet now webhook result) =
  (build_record now result ≫= λ _, Ok ()).
Proof.
  destruct (build_record now result) as [data|e] eqn:Hb.
  - by rewrite (send_to_spreadsheet_run _ _ _ _ Hb).
  - unfold send_to_spreadsheet. by rewrite Hb.
Qed.

(** What the webhook answers does not change how the run ends. *)
Lemma main_outcome_ignores_webhook w o :
  outcome (main (with_webhook w o)) = outcome (main w).
Proof.
  unfold main, generate_and_publish.
  change (main_run (with_webhook w o)) with (main_run w).
  cbn [environ llm_service clock_start clock_publish webhook_service
       with_webhook].
  do 5 (apply outcome_bind_ext; intros _).
  apply outcome_bind_ext; intros news.
  apply outcome_bind_ext; intros _.
  destruct news as [|n news]; [done|].
  repeat (apply outcome_bind_ext; intros ?).
  by destruct o, (webhook_service w).
Qed.

End main_facts.

(** C8: when [fetch_news] returns an empty list, [main] prints the count
    and the message and returns; the run calls neither the generative
    service nor the webhook. *)
Theorem main_stops_without_news (w : world) (tr : list event) :
  fetch_news (environ w) (main_run w) = Run tr (Ok []) →
  main w =
    Run (header w ++ tr ++ [Print (LFetched 0); Print LNoNews]) (Ok ()) ∧
  Forall (λ ev, ¬ is_generate ev ∧ ¬ is_publish ev) (trace (main w)).
Proof.
  intros H. rewrite (main_fetch_empty _ _ H). split; [done|]. cbn [trace].
  pose proof (fetch_news_events (environ w) (main_run w)) as Hev.
  rewrite H in Hev. cbn [trace] in Hev.
  apply Forall_app. split; [apply header_events|].
  apply Forall_app. split; [done|].
  repeat constructor; by auto.
Qed.

Lemma main_stops_without_news_witness :
  main world_nothing =
    Run (header world_nothing
           ++ trace (fetch_news env_key (main_run world_nothing))
           ++ [Print (LFetched 0); Print LNoNews]) (Ok ()) ∧
  Forall (λ ev, ¬ is_generate ev ∧ ¬ is_publish ev)
         (trace (main world_nothing)).
Proof.
  apply (main_stops_without_news world_nothing).
  vm_compute. reflexivity.
Defined.

(** C4: when the fetch phase gave a non-empty list and the text extracted
    from the reply is refused by the decoder, [generate_posts] raises the
    decoder's exception; nothing in [main] catches it, so the run ends
    with that exception right after the request to the generative
    service, and the webhook is never called. *)
Theorem malformed_reply_is_fatal
    (w : world) (tr : list event) (news : list news_item)
    (text : str) (more : list str) (s : str) (e : exn) :
  fetch_news (environ w) (main_run w) = Run tr (Ok news) →
  news ≠ [] →
  llm_service w = Message (text :: more) →
  extract_json text = Ok s →
  Json.loads s = Raise e →
  generate_posts (llm_service w) news = Run [GenerateRequest news] (Raise e) ∧
  main w =
    Run (header w ++ tr ++ Print (LFetched (length news)) ::
           title_lines news ++ [Print LGenerating; GenerateRequest news])
        (Raise e) ∧
  Forall (λ ev, ¬ is_publish ev) (trace (main w)).
Proof.
  intros Hf Hne Hllm Hs He.
  assert (parse_reply (llm_service w) = Raise e) as Hp.
  { rewrite Hllm, parse_reply_text, Hs. exact He. }
  split; [by rewrite generate_posts_run, Hp|].
  rewrite (main_fetch_some _ _ _ Hf Hne).
  rewrite (generate_and_publish_raises _ _ _ Hp).
  split; [done|]. cbn [trace].
  pose proof (fetch_news_events (environ w) (main_run w)) as Hev.
  rewrite Hf in Hev. cbn [trace] in Hev.
  assert (∀ l, Forall (λ ev, ¬ is_generate ev ∧ ¬ is_publish ev) l →
               Forall (λ ev, ¬ is_publish ev) l) as Hweak.
  { intros l Hl. eapply Forall_impl; [exact Hl|]. by intros ev [_ ?]. }
  apply Forall_app. split; [apply Hweak, header_events|].
  apply Forall_app. split; [by apply Hweak|].
  constructor; [by auto|].
  apply Forall_app. split; [apply Hweak, title_lines_events|].
  repeat constructor; by auto.
Qed.

Lemma malformed_reply_is_fatal_witness :
  outcome (main world_bad_reply) = Raise JSONDecodeError ∧
  Forall (λ ev, ¬ is_publish ev) (trace (main world_bad_reply)).
Proof.
  destruct (malformed_reply_is_fatal world_bad_reply
              (trace (fetch_news env_key (main_run world_bad_reply)))
              [ {| title := py "A"; summary := py "aa";
                   url := py "https://a" |} ]
              (py "Sorry, I cannot help.") [] [] JSONDecodeError)
    as (_ & Hm & Hp).
  - vm_compute. reflexivity.
  - discriminate.
  - reflexivity.
  - reflexivity.
  - reflexivity.
  - split; [by rewrite Hm|exact Hp].
Defined.

(** * Further properties of the code *)

(** ** The news fetcher *)

Section fetch_more.
Implicit Types (st : store) (run more : list (str * search_outcome)).
Implicit Types (items : list item).

Lemma upto_length n s : length (Str.upto n s) ≤ n.
Proof.
  unfold Str.upto, Str.slice, Str.clamp.
  destruct (Z.ltb_spec 0 0); [lia|].
  destruct (Z.ltb_spec (Z.of_nat n) 0); [lia|].
  rewrite length_take. lia.
Qed.

Lemma visit_sources it st a :
  a ∈ all_news (visit it st).1 →
  a ∈ all_news st ∨ (is_Some (it !! py "url") ∧ a = news_of it).
Proof.
  unfold visit. destruct (it !! py "url") as [u|] eqn:Hu; [|by left].
  case_decide; [by left|]. simpl.
  intros [Ha|Ha%list_elem_of_singleton]%elem_of_app; [by left|].
  right. split; [by eauto|]. subst a. unfold news_of. by rewrite Hu.
Qed.

Lemma visit_all_sources items st a :
  a ∈ all_news (visit_all items st).1 →
  a ∈ all_news st ∨
  ∃ it, it ∈ items ∧ is_Some (it !! py "url") ∧ a = news_of it.
Proof.
  revert st. induction items as [|it items IH]; intros st; [by left|].
  simpl. destruct (visit it st) as [st' [e|]] eqn:Hv.
  - simpl. intros Ha.
    assert (a ∈ all_news (visit it st).1) as Ha' by (by rewrite Hv).
    apply visit_sources in Ha' as [?|[? ?]]; [by left|].
    right. exists it. split; [by left|done].
  - intros [Ha|(it' & Hin & Hu & ->)]%IH.
    + assert (a ∈ all_news (visit it st).1) as Ha' by (by rewrite Hv).
      apply visit_sources in Ha' as [?|[? ?]]; [by left|].
      right. exists it. split; [by left|done].
    + right. exists it'. split; [by right|done].
Qed.

Lemma store_after_sources run st a :
  a ∈ all_news (foldl store_after st (run.*2)) →
  a ∈ all_news st ∨
  ∃ qo items it, qo ∈ run ∧ search_results qo.2 = Ok items ∧
    it ∈ items ∧ is_Some (it !! py "url") ∧ a = news_of it.
Proof.
  revert st. induction run as [|qo run IH]; intros st; [by left|].
  simpl. intros [Ha|(qo' & items & it & Hin & ?)]%IH.
  - unfold store_after in Ha.
    destruct (search_results qo.2) as [items|e] eqn:Hr; [|by left].
    apply visit_all_sources in Ha as [?|(it & ? & ? & ?)]; [by left|].
    right. exists qo, items, it. split; [by left|done].
  - right. exists qo', items, it. split; [by right|done].
Qed.

End fetch_more.

(** X1: every item that [fetch_news] returns was built from an item of a
    response the program could read, which has a url: its url is that
    url, its title and summary are the title and the content of the item
    (the empty text for a missing one), and the summary is cut to at most
    300 characters. *)
Theorem fetch_news_items_from_responses
    (env : gmap str str) (run : list (str * search_outcome))
    (tr : list event) (out : list news_item) (a : news_item) :
  fetch_news env run = Run tr (Ok out) →
  a ∈ out →
  ∃ qo items it,
    qo ∈ run ∧ search_results qo.2 = Ok items ∧ it ∈ items ∧
    it !! py "url" = Some (url a) ∧
    title a = default [] (it !! py "title") ∧
    summary a = Str.upto 300 (default [] (it !! py "content")) ∧
    length (summary a) ≤ 300.
Proof.
  intros (c & k & _ & _ & ->)%fetch_news_inv Ha.
  apply list_elem_of_lookup in Ha as [i [Ha _]%lookup_take_Some].
  apply list_elem_of_lookup_2 in Ha.
  apply store_after_sources in Ha as [Ha|Ha]; [by apply elem_of_nil in Ha|].
  destruct Ha as (qo & items & it & Hqo & Hr & Hit & [u Hu] & ->).
  exists qo, items, it. split_and!; try done.
  - unfold news_of. simpl. by rewrite Hu.
  - apply upto_length.
Qed.

Lemma fetch_news_items_from_responses_witness :
  ∃ qo items it,
    qo ∈ run_sample ∧ search_results qo.2 = Ok items ∧ it ∈ items ∧
    it !! py "url" = Some (py "https://c") ∧
    py "C" = default [] (it !! py "title") ∧
    py "cc" = Str.upto 300 (default [] (it !! py "content")) ∧
    length (py "cc") ≤ 300.
Proof.
  apply (fetch_news_items_from_responses env_key run_sample
           (trace (fetch_news env_key run_sample)) news_sample
           {| title := py "C"; summary := py "cc"; url := py "https://c" |}).
  - vm_compute. reflexivity.
  - unfold news_sample. do 2 right. left.
Defined.

Section fetch_loop_more.
Implicit Types (st : store) (run more : list (str * search_outcome)).
Implicit Types (items pre post : list item).

Lemma visit_with_url it st :
  is_Some (it !! py "url") → (visit it st).2 = None.
Proof.
  intros [u Hu]. unfold visit. rewrite Hu. by case_decide.
Qed.

Lemma visit_all_app_ok pre items st :
  Forall (λ it : item, is_Some (it !! py "url")) pre →
  visit_all (pre ++ items) st = visit_all items (visit_all pre st).1.
Proof.
  intros Hpre. revert st.
  induction Hpre as [|it pre Hit _ IH]; intros st; [done|].
  simpl. pose proof (visit_with_url it st Hit) as Hv.
  destruct (visit it st) as [st' [e|]]; [done|]. apply IH.
Qed.

Lemma visit_all_ok pre st :
  Forall (λ it : item, is_Some (it !! py "url")) pre →
  (visit_all pre st).2 = None.
Proof.
  intros Hpre. revert st.
  induction Hpre as [|it pre Hit _ IH]; intros st; [done|].
  simpl. pose proof (visit_with_url it st Hit) as Hv.
  destruct (visit it st) as [st' [e|]]; [done|]. apply IH.
Qed.

(** An item whose url was seen leaves the store as it is. *)
Lemma visit_all_seen items st :
  (∀ u, u ∈ urls_read items → u ∈ seen st) →
  (visit_all items st).1 = st.
Proof.
  induction items as [|it items IH]; intros Hseen; [done|].
  simpl. unfold visit. simpl in Hseen.
  destruct (it !! py "url") as [u|]; [|done].
  rewrite decide_True by (apply Hseen; by left).
  apply IH. intros v Hv. apply Hseen. by right.
Qed.

Lemma store_after_seen run st :
  (∀ u, u ∈ url_stream run → u ∈ seen st) →
  foldl store_after st (run.*2) = st.
Proof.
  revert st. induction run as [|qo run IH]; intros st Hseen; [done|].
  simpl in *. unfold store_after at 2.
  destruct (search_results qo.2) as [items|e].
  - rewrite visit_all_seen.
    + apply IH. intros u Hu. apply Hseen, elem_of_app. by right.
    + intros u Hu. apply Hseen, elem_of_app. by left.
  - by apply IH.
Qed.

(** The accumulated list only grows at its end. *)
Lemma visit_all_prefix items st :
  all_news st `prefix_of` all_news (visit_all items st).1.
Proof.
  revert st. induction items as [|it items IH]; intros st; [done|].
  simpl.
  assert (all_news st `prefix_of` all_news (visit it st).1) as Hv.
  { unfold visit. destruct (it !! py "url"); [|done].
    case_decide; [done|]. simpl. by apply prefix_app_r. }
  destruct (visit it st) as [st' [e|]]; [done|].
  etrans; [exact Hv|apply IH].
Qed.

Lemma store_after_prefix run st :
  all_news st `prefix_of` all_news (foldl store_after st (run.*2)).
Proof.
  revert st. induction run as [|qo run IH]; intros st; [done|].
  simpl. etrans; [|apply IH]. unfold store_after.
  destruct (search_results qo.2); [apply visit_all_prefix|done].
Qed.

Lemma take_prefix {A} (n : nat) (l1 l2 : list A) :
  l1 `prefix_of` l2 → take n l1 `prefix_of` take n l2.
Proof.
  intros [k ->]. exists (take (n - length l1) k). apply take_app.
Qed.

End fetch_loop_more.

(** X2: in a response the program can read, an item without a url ends
    the response: the items before it are handled as usual, the exception
    [KeyError] for [url] is logged, the items after it are never looked
    at, and the loop over the queries goes on. *)
Theorem missing_url_ends_response
    (k : str) (st : store) (q : str) (status : Z)
    (pre post : list item) (bad : item) :
  ¬ (400 ≤ status < 600)%Z →
  Forall (λ it : item, is_Some (it !! py "url")) pre →
  bad !! py "url" = None →
  search k st (q, Response status (Object (Some (pre ++ bad :: post)))) =
    Run [SearchRequest k q; Print (LSearchError (KeyError (py "url")))]
        (Ok (visit_all pre st).1).
Proof.
  intros Hs Hpre Hbad.
  assert (search_results (Response status (Object (Some (pre ++ bad :: post))))
          = Ok (pre ++ bad :: post)) as Hres.
  { unfold search_results, raise_for_status.
    by rewrite decide_False by done. }
  rewrite search_run. unfold search_error, store_after.
  cbn [fst snd]. rewrite Hres, (visit_all_app_ok _ _ _ Hpre).
  cbn [visit_all]. unfold visit at 1 2. rewrite Hbad. reflexivity.
Qed.

Lemma missing_url_ends_response_witness :
  search (py "k") {| all_news := []; seen := ∅ |}
    (py "q", Response 200 (Object (Some (
       [item_of (py "https://a") (py "A") (py "aa")] ++
       ({[ py "title" := py "no url" ]} : item) ::
       [item_of (py "https://b") (py "B") (py "bb")])))) =
  Run [SearchRequest (py "k") (py "q");
       Print (LSearchError (KeyError (py "url")))]
      (Ok (visit_all [item_of (py "https://a") (py "A") (py "aa")]
             {| all_news := []; seen := ∅ |}).1).
Proof.
  apply (missing_url_ends_response (py "k") {| all_news := []; seen := ∅ |}
           (py "q") 200 [item_of (py "https://a") (py "A") (py "aa")]
           [item_of (py "https://b") (py "B") (py "bb")]
           ({[ py "title" := py "no url" ]} : item)).
  - lia.
  - repeat constructor. by eexists.
  - reflexivity.
Defined.

(** X3: queries whose responses only bring urls that were met before
    change nothing: the list returned with them at the end of the run is
    the list returned without them. *)
Theorem fetch_news_seen_urls_add_nothing
    (env : gmap str str) (run more : list (str * search_outcome)) :
  (∀ u, u ∈ url_stream more → u ∈ url_stream run) →
  outcome (fetch_news env (run ++ more)) = outcome (fetch_news env run).
Proof.
  intros Hsub.
  destruct (env !! TAVILY_API_KEY) as [[|c k]|] eqn:Hk.
  - by rewrite !fetch_news_without_key by auto.
  - rewrite !(fetch_news_with_key _ _ _ _ Hk). simpl.
    rewrite fmap_app, foldl_app.
    pose proof (store_after_inv run _ [] fetch_inv_init) as (Hseen & _).
    simpl in Hseen.
    rewrite (store_after_seen more); [done|].
    intros u Hu. by apply Hseen, Hsub.
  - by rewrite !fetch_news_without_key by auto.
Qed.

Lemma fetch_news_seen_urls_add_nothing_witness :
  outcome (fetch_news env_key (run_sample ++ run_sample))
  = outcome (fetch_news env_key run_sample).
Proof.
  apply (fetch_news_seen_urls_add_nothing env_key run_sample run_sample).
  intros u Hu. exact Hu.
Defined.

(** X4: more queries at the end of a run never displace what the run
    found: the list returned for the run is a prefix of the list returned
    for the longer run, and once the run has ten items the longer run
    returns the same list. *)
Theorem fetch_news_first_found_first_kept
    (env : gmap str str) (run more : list (str * search_outcome))
    (tr tr' : list event) (out out' : list news_item) :
  fetch_news env run = Run tr (Ok out) →
  fetch_news env (run ++ more) = Run tr' (Ok out') →
  out `prefix_of` out' ∧ (length out = 10 → out' = out).
Proof.
  intros (c & k & Hk & _ & ->)%fetch_news_inv.
  intros (c' & k' & _ & _ & ->)%fetch_news_inv.
  rewrite fmap_app, foldl_app.
  set (st := foldl store_after _ (run.*2)).
  pose proof (take_prefix 10 _ _ (store_after_prefix more st)) as Hp.
  split; [done|]. intros Hlen.
  destruct Hp as [rest Hrest]. rewrite Hrest.
  assert (length (take 10 (all_news (foldl store_after st (more.*2)))) ≤ 10)
    as Hle by (rewrite length_take; lia).
  rewrite Hrest, length_app, Hlen in Hle.
  destruct rest; [by rewrite app_nil_r|simpl in Hle; lia].
Qed.

Lemma fetch_news_first_found_first_kept_witness :
  news_ten `prefix_of` news_ten ∧ (length news_ten = 10 → news_ten = news_ten).
Proof.
  apply (fetch_news_first_found_first_kept env_key
           (take 2 run_fifteen) (drop 2 run_fifteen)
           (trace (fetch_news env_key (take 2 run_fifteen)))
           (trace (fetch_news env_key run_fifteen))
           news_ten news_ten).
  - vm_compute. reflexivity.
  - vm_compute. reflexivity.
Defined.

(** ** The extraction step *)

Lemma fence_ticks : fence = ticks ++ py "json".
Proof. reflexivity. Qed.

(** X5: when the reply is prose, the fence, a content, the closing
    marker and more prose, where the fence and the closing marker are the
    first ones, and no second fence starts one or two characters after
    the closing marker, the extraction selects exactly the content. *)
Theorem extract_json_selects_fenced_content (pre content post : str) :
  Str.index_of fence (pre ++ fence ++ content ++ ticks ++ post)
    = Some (length pre) →
  Str.index_of ticks (content ++ ticks ++ post) = Some (length content) →
  (∀ q, Str.index_of fence (content ++ ticks ++ post) = Some q →
        q = length content ∨ length content + 3 ≤ q) →
  extract_json (pre ++ fence ++ content ++ ticks ++ post) = Ok content ∧
  parse_reply (Message [pre ++ fence ++ content ++ ticks ++ post])
    = Json.loads content.
Proof.
  intros Hf Ht Hq.
  pose proof (extract_json_fenced_content pre content post Hf Ht Hq) as He.
  split; [done|]. by rewrite parse_reply_text, He.
Qed.

Lemma extract_json_selects_fenced_content_witness :
  extract_json (py "Here you go: " ++ fence ++ pyq "{'a': 1}" ++ ticks
                  ++ py " Enjoy.") = Ok (pyq "{'a': 1}") ∧
  parse_reply (Message [py "Here you go: " ++ fence ++ pyq "{'a': 1}"
                          ++ ticks ++ py " Enjoy."])
    = Json.loads (pyq "{'a': 1}").
Proof.
  apply (extract_json_selects_fenced_content
           (py "Here you go: ") (pyq "{'a': 1}") (py " Enjoy.")).
  - vm_compute. reflexivity.
  - vm_compute. reflexivity.
  - intros q Hq. vm_compute in Hq. discriminate Hq.
Defined.

(** X6: when the reply has a fence and no [```] after it, the extraction
    selects everything after the fence. *)
Theorem extract_json_unterminated_fence (text : str) (i : nat) :
  Str.index_of fence text = Some i →
  Str.index_of ticks (drop (i + length fence) text) = None →
  extract_json text = Ok (drop (i + length fence) text).
Proof.
  intros Hi Hn. rewrite (extract_json_fenced _ _ Hi).
  assert (Str.index_of fence (drop (i + length fence) text) = None) as Hf.
  { destruct (Str.index_of fence (drop (i + length fence) text))
      as [q|] eqn:Eq; [|done].
    rewrite fence_ticks in Eq at 1.
    apply index_of_longer in Eq as (p & Hp & _). congruence. }
  unfold cut_before. by rewrite Hf, Hn.
Qed.

Lemma extract_json_unterminated_fence_witness :
  extract_json (py "```json" ++ pyq "{'a': 1}") = Ok (pyq "{'a': 1}").
Proof.
  apply (extract_json_unterminated_fence (py "```json" ++ pyq "{'a': 1}") 0).
  - reflexivity.
  - reflexivity.
Defined.

Lemma find_ge text pat : (-1 ≤ Str.find text pat)%Z.
Proof. unfold Str.find. destruct (Str.index_of pat text); lia. Qed.

Lemma rfind_ge text pat : (-1 ≤ Str.rfind text pat)%Z.
Proof. unfold Str.rfind. destruct (Str.rindex_of pat text); lia. Qed.

(** [s[a:b]] is empty when [0 <= b <= a]. *)
Lemma slice_empty (s : str) (a b : Z) :
  (0 ≤ b ≤ a)%Z → Str.slice s a b = [].
Proof.
  intros Hab. unfold Str.slice, Str.clamp.
  destruct (Z.ltb_spec a 0); [lia|]. destruct (Z.ltb_spec b 0); [lia|].
  replace (Z.to_nat _) with 0 at 1; [done|]. lia.
Qed.

(** X7: in a reply without a fence whose last [}] comes before its first
    [{], or that has a [{] and no [}], the slice is empty and the decoder
    raises its error. *)
Theorem extract_json_unbalanced (text : str) (more : list str) :
  Str.contains fence text = false →
  (Str.rfind text (py "}") < Str.find text (py "{"))%Z →
  extract_json text = Ok [] ∧
  parse_reply (Message (text :: more)) = Raise JSONDecodeError.
Proof.
  intros Hf%contains_false Hlt.
  assert (extract_json text = Ok []) as He.
  { rewrite extract_json_unfenced by done.
    pose proof (rfind_ge text (py "}")).
    by rewrite slice_empty by lia. }
  split; [done|]. by rewrite parse_reply_text, He.
Qed.

Lemma extract_json_unbalanced_witness :
  extract_json (pyq "} then {'a': 1") = Ok [] ∧
  parse_reply (Message [pyq "} then {'a': 1"]) = Raise JSONDecodeError.
Proof.
  apply (extract_json_unbalanced (pyq "} then {'a': 1") []).
  - reflexivity.
  - vm_compute. reflexivity.
Defined.

(** ** The pipeline *)

(** X8: whatever exception the generation step raises (a failure of the
    service, a message without content, a decode error), [main] does not
    catch it: the run ends with it right after the request, and the
    webhook is never called. *)
Theorem generation_failure_is_fatal
    (w : world) (tr : list event) (news : list news_item) (e : exn) :
  fetch_news (environ w) (main_run w) = Run tr (Ok news) →
  news ≠ [] →
  parse_reply (llm_service w) = Raise e →
  main w = Run (upto_generation w tr news) (Raise e) ∧
  Forall (λ ev, ¬ is_publish ev) (trace (main w)).
Proof.
  intros Hf Hne Hp.
  rewrite (main_fetch_some _ _ _ Hf Hne).
  rewrite (generate_and_publish_raises _ _ _ Hp).
  split; [done|]. cbn [trace].
  pose proof (fetch_news_events (environ w) (main_run w)) as Hev.
  rewrite Hf in Hev. cbn [trace] in Hev.
  assert (∀ l, Forall (λ ev, ¬ is_generate ev ∧ ¬ is_publish ev) l →
               Forall (λ ev, ¬ is_publish ev) l) as Hweak.
  { intros l Hl. eapply Forall_impl; [exact Hl|]. by intros ev [_ ?]. }
  apply Forall_app. split; [apply Hweak, header_events|].
  apply Forall_app. split; [by apply Hweak|].
  constructor; [by auto|].
  apply Forall_app. split; [apply Hweak, title_lines_events|].
  repeat constructor; by auto.
Qed.

Lemma generation_failure_is_fatal_witness :
  main world_api_down =
    Run (upto_generation world_api_down
           (trace (fetch_news env_key (main_run world_api_down))) news_one)
        (Raise (APIError (py "overloaded"))) ∧
  Forall (λ ev, ¬ is_publish ev) (trace (main world_api_down)).
Proof.
  apply (generation_failure_is_fatal world_api_down).
  - vm_compute. reflexivity.
  - discriminate.
  - reflexivity.
Defined.

(** X9: without the key in the environment (or with an empty one),
    [main] prints its header and ends with the [ValueError] of
    [fetch_news]: no request of any kind is sent. *)
Theorem main_without_key (w : world) :
  environ w !! TAVILY_API_KEY = None ∨
  environ w !! TAVILY_API_KEY = Some [] →
  main w = Run (header w) (Raise (ValueError (py "TAVILY_API_KEY not set"))).
Proof.
  intros Hk.
  rewrite (main_fetch_raises w [] (ValueError (py "TAVILY_API_KEY not set"))).
  - by rewrite app_nil_r.
  - by apply fetch_news_without_key.
Qed.

Lemma main_without_key_witness :
  main world_no_key =
    Run (header world_no_key)
        (Raise (ValueError (py "TAVILY_API_KEY not set"))).
Proof. apply (main_without_key world_no_key). left. reflexivity. Defined.

(** X10: the answer of the webhook has no influence on how a run ends:
    with any other answer, [main] returns or raises the same. *)
Theorem main_ends_the_same_whatever_the_webhook
    (w : world) (o : webhook_outcome) :
  outcome (main (with_webhook w o)) = outcome (main w).
Proof. apply main_outcome_ignores_webhook. Qed.

(** X11: when the reply decodes to a value that is not an object, [main]
    prints the rule that opens the summary and ends with
    [AttributeError]; the webhook is never called. *)
Theorem non_object_result_is_fatal
    (w : world) (tr : list event) (news : list news_item) (v : json) :
  fetch_news (environ w) (main_run w) = Run tr (Ok news) →
  news ≠ [] →
  parse_reply (llm_service w) = Ok v →
  (∀ kvs, v ≠ JObj kvs) →
  main w = Run (upto_generation w tr news ++ [Print LRule])
               (Raise AttributeError).
Proof.
  intros Hf Hne Hp Hv.
  rewrite (main_fetch_some _ _ _ Hf Hne).
  unfold generate_and_publish. rewrite generate_posts_run, Hp.
  assert (get v (py "selected_news") JNull = Raise AttributeError) as Hg.
  { destruct v; try done. by destruct (Hv members). }
  cbn [mbind io_bind print emit eval trace outcome]. rewrite Hg.
  cbn [mbind io_bind print emit eval trace outcome].
  unfold upto_generation. f_equal.
  rewrite <- !app_assoc. simpl. by rewrite <- !app_assoc.
Qed.

Lemma non_object_result_is_fatal_witness :
  main world_array_reply =
    Run (upto_generation world_array_reply
           (trace (fetch_news env_key (main_run world_array_reply))) news_one
         ++ [Print LRule])
        (Raise AttributeError).
Proof.
  apply (non_object_result_is_fatal world_array_reply _ _
           (JArr [JNum (py "1"); JNum (py "2")])).
  - vm_compute. reflexivity.
  - discriminate.
  - vm_compute. reflexivity.
  - discriminate.
Defined.

Section happy_path.
Implicit Types (g : generation_result) (w : world).

Lemma show_post_typed i (p : post_draft) :
  show_post (i, draft_json p) = Run (draft_events i p) (Ok ()).
Proof. reflexivity. Qed.

Lemma for_each_show_post (f : nat → nat) (l : list post_draft) :
  for_each (imap (λ i x, (f i, x)) (draft_json <$> l)) show_post =
  Run (concat (imap (λ i p, draft_events (f i) p) l)) (Ok ()).
Proof.
  revert f. induction l as [|p l IH]; intros f; [done|].
  cbn [fmap list_fmap imap for_each concat].
  rewrite show_post_typed.
  change (for_each (imap ((λ i x, (f i, x)) ∘ S) (draft_json <$> l))
            show_post)
    with (for_each (imap (λ i x, ((f ∘ S) i, x)) (draft_json <$> l))
            show_post).
  rewrite (IH (f ∘ S)). reflexivity.
Qed.

Lemma generate_and_publish_typed w news g :
  parse_reply (llm_service w) = Ok (result_json g) →
  generate_and_publish w news =
  Run ([Print LGenerating; GenerateRequest news; Print LRule;
        Print (LSelected (JStr (gr_selected_news g)));
        Print (LSelectedUrl (JStr (gr_selected_news_url g)));
        Print (LReason (JStr (gr_reason g))); Print LRule]
       ++ draft_lines g
       ++ [Print LSending;
           PublishRequest (typed_record (clock_publish w) g)]
       ++ webhook_lines (webhook_service w))
      (Ok ()).
Proof.
  intros Hp. unfold generate_and_publish.
  rewrite generate_posts_run, Hp.
  pose proof (build_record_typed (clock_publish w) g) as Hb.
  cbn [mbind io_bind print emit eval trace outcome].
  change (get (result_json g) (py "selected_news") JNull)
    with (Ok (JStr (gr_selected_news g))).
  cbn [mbind io_bind print emit eval trace outcome].
  change (get (result_json g) (py "selected_news_url") JNull)
    with (Ok (JStr (gr_selected_news_url g))).
  cbn [mbind io_bind print emit eval trace outcome].
  change (get (result_json g) (py "reason") JNull)
    with (Ok (JStr (gr_reason g))).
  cbn [mbind io_bind print emit eval trace outcome].
  change (get (result_json g) (py "posts") (JArr []))
    with (Ok (JArr (draft_json <$> gr_posts g))).
  cbn [mbind io_bind print emit eval trace outcome].
  change (py_iter (JArr (draft_json <$> gr_posts g)))
    with (Ok (draft_json <$> gr_posts g)).
  cbn [mbind io_bind print emit eval trace outcome].
  unfold enumerate1. rewrite (for_each_show_post S).
  cbn [mbind io_bind print emit eval trace outcome].
  rewrite (send_to_spreadsheet_run _ (webhook_service w) _ _ Hb).
  cbn [mbind io_bind print emit eval trace outcome].
  unfold draft_lines, typed_record, webhook_lines.
  f_equal.
Qed.

End happy_path.

(** X12: when the fetch gives a non-empty list and the reply decodes to
    a result of the typed shape, [main] prints the selection, then for
    each draft its label, hook, text and the number of characters of the
    text, sends the record of the result to the webhook once, prints what
    the webhook answered, and returns normally. *)
Theorem main_complete_run
    (w : world) (tr : list event) (news : list news_item)
    (g : generation_result) :
  fetch_news (environ w) (main_run w) = Run tr (Ok news) →
  news ≠ [] →
  parse_reply (llm_service w) = Ok (result_json g) →
  main w =
    Run (upto_generation w tr news
         ++ [Print LRule;
             Print (LSelected (JStr (gr_selected_news g)));
             Print (LSelectedUrl (JStr (gr_selected_news_url g)));
             Print (LReason (JStr (gr_reason g))); Print LRule]
         ++ draft_lines g
         ++ [Print LSending;
             PublishRequest (typed_record (clock_publish w) g)]
         ++ webhook_lines (webhook_service w))
        (Ok ()).
Proof.
  intros Hf Hne Hp.
  rewrite (main_fetch_some _ _ _ Hf Hne).
  rewrite (generate_and_publish_typed _ _ _ Hp).
  cbn [trace outcome]. unfold upto_generation. f_equal.
  rewrite <- !app_assoc. simpl. by rewrite <- !app_assoc.
Qed.

Lemma main_complete_run_witness :
  outcome (main world_complete) = Ok () ∧
  last (trace (main world_complete)) =
    Some (Print (LSendError (RequestException (py "connection refused")))).
Proof.
  rewrite (main_complete_run world_complete
             (trace (fetch_news env_key (main_run world_complete)))
             news_one result_sample).
  - split; reflexivity.
  - vm_compute. reflexivity.
  - discriminate.
  - vm_compute. reflexivity.
Defined.

(** ** The result publisher *)

(** X13: only the first three drafts reach the record: a result and the
    same result cut to its first three drafts give the same record. *)
Theorem build_record_first_three (now : datetime) (g : generation_result) :
  build_record now (result_json (with_posts g (take 3 (gr_posts g)))) =
  build_record now (result_json g).
Proof.
  rewrite !build_record_typed. unfold draft_text. simpl.
  by rewrite !lookup_take_lt by lia.
Qed.

(** X14: building the record is outside the [try]: when the result is
    an object whose [posts] is [null], a number or a boolean,
    [send_to_spreadsheet] raises [TypeError] and sends nothing. *)
Theorem send_to_spreadsheet_unsized_posts
    (now : datetime) (webhook : webhook_outcome)
    (kvs : list (str * json)) (p : json) :
  assoc_last (py "posts") kvs = Some p →
  unsized p →
  send_to_spreadsheet now webhook (JObj kvs) = Run [] (Raise TypeError).
Proof.
  intros Hp Hu.
  assert (build_record now (JObj kvs) = Raise TypeError) as Hb.
  { unfold build_record, get. rewrite Hp.
    cbn [mbind res_bind default].
    by destruct p. }
  unfold send_to_spreadsheet. by rewrite Hb.
Qed.

Lemma send_to_spreadsheet_unsized_posts_witness :
  send_to_spreadsheet now_sample (Reply 200 (py "ok"))
    (JObj [(py "reason", JStr (py "r")); (py "posts", JNull)])
  = Run [] (Raise TypeError).
Proof.
  apply (send_to_spreadsheet_unsized_posts now_sample (Reply 200 (py "ok"))
           [(py "reason", JStr (py "r")); (py "posts", JNull)] JNull).
  - reflexivity.
  - exact I.
Defined.

Lemma post_text_dicts (pks : list (list (str * json))) (i : nat) :
  post_text (JArr (JObj <$> pks)) i = Ok (text_value pks i).
Proof.
  unfold post_text, text_value. simpl. rewrite length_fmap.
  case_decide as Hi.
  - destruct (lookup_lt_is_Some_2 pks i Hi) as [pk Hpk].
    unfold item_at. rewrite list_lookup_fmap, Hpk. reflexivity.
  - by rewrite lookup_ge_None_2 by lia.
Qed.

(** X15: for any object whose [posts] is a list of objects, the record
    is built, and nothing in it is checked: [selected_news],
    [selected_news_url] and [reason] are the values of the result under
    these keys, of whatever type, or the empty text for a missing key, and
    each of [post1], [post2], [post3] is the value of the draft under
    [text], of whatever type, or the empty text for a missing key or a
    missing draft. *)
Theorem build_record_untyped
    (now : datetime) (kvs : list (str * json))
    (pks : list (list (str * json))) :
  assoc_last (py "posts") kvs = Some (JArr (JObj <$> pks)) →
  ∃ data,
    build_record now (JObj kvs) = Ok data ∧
    dom data = list_to_set record_keys ∧
    data !! py "selected_news"
      = Some (default (JStr []) (assoc_last (py "selected_news") kvs)) ∧
    data !! py "selected_news_url"
      = Some (default (JStr []) (assoc_last (py "selected_news_url") kvs)) ∧
    data !! py "reason"
      = Some (default (JStr []) (assoc_last (py "reason") kvs)) ∧
    ∀ i, i < 3 → data !! post_key i = Some (text_value pks i).
Proof.
  intros Hp. unfold build_record, get. rewrite Hp.
  cbn [mbind res_bind default from_option id]. rewrite !post_text_dicts.
  cbn [mbind res_bind]. eexists. split; [reflexivity|].
  split; [by rewrite dom_list_to_map_L|].
  split_and!; try reflexivity.
  intros [|[|[|i]]] Hi; try lia; reflexivity.
Qed.

Lemma build_record_untyped_witness :
  ∃ data,
    build_record now_sample
      (JObj [(py "posts", JArr (JObj <$> [[(py "text", JNull)]]))])
      = Ok data ∧
    data !! py "reason" = Some (JStr []) ∧
    data !! py "post1" = Some JNull ∧
    data !! py "post2" = Some (JStr []).
Proof.
  destruct (build_record_untyped now_sample
              [(py "posts", JArr (JObj <$> [[(py "text", JNull)]]))]
              [[(py "text", JNull)]] eq_refl)
    as (data & Hb & _ & _ & _ & Hr & Hposts).
  exists data. split; [exact Hb|]. split; [exact Hr|].
  split; [exact (Hposts 0 ltac:(lia))|exact (Hposts 1 ltac:(lia))].
Defined.

(** ** The calls of a run *)

Section calls.
Implicit Types (w : world) (news : list news_item) (tr : list event).

Lemma calls_of_app tr1 tr2 :
  calls_of (tr1 ++ tr2) = calls_of tr1 ++ calls_of tr2.
Proof. apply omap_app. Qed.

Lemma calls_of_cons ev tr :
  calls_of (ev :: tr) =
  match call_of ev with
  | Some c => c :: calls_of tr
  | None => calls_of tr
  end.
Proof. reflexivity. Qed.

Lemma calls_of_prints {A} (f : A → line) (l : list A) :
  calls_of ((λ x, Print (f x)) <$> l) = [].
Proof. induction l as [|x l IH]; [done|]. exact IH. Qed.

Lemma fetch_loop_calls k run st :
  calls_of (trace (fetch_loop k run st)) = CallSearch <$> run.*1.
Proof.
  revert st. induction run as [|qo run IH]; intros st; [done|].
  rewrite fetch_loop_cons, trace_bind, search_run. simpl.
  unfold calls_of in *. simpl. f_equal.
  rewrite omap_app, IH.
  by destruct (search_error st qo.2).
Qed.

Lemma show_post_calls (ip : nat * json) :
  calls_of (trace (show_post ip)) = [].
Proof.
  destruct ip as [i v]. unfold show_post.
  destruct v; try reflexivity.
  cbn [get snd fst eval print emit mbind io_bind trace outcome].
  destruct (py_len _); reflexivity.
Qed.

Lemma for_each_show_post_calls (l : list (nat * json)) :
  calls_of (trace (for_each l show_post)) = [].
Proof.
  induction l as [|ip l IH]; [done|].
  cbn [for_each]. rewrite trace_bind.
  destruct (outcome (show_post ip)).
  - by rewrite calls_of_app, show_post_calls, IH.
  - apply show_post_calls.
Qed.

Lemma send_to_spreadsheet_calls now webhook result :
  calls_of (trace (send_to_spreadsheet now webhook result))
    `prefix_of` [CallPublish].
Proof.
  destruct (build_record now result) as [data|e] eqn:Hb.
  - rewrite (send_to_spreadsheet_run _ _ _ _ Hb).
    by destruct webhook.
  - unfold send_to_spreadsheet. rewrite Hb. apply prefix_nil.
Qed.

Lemma generate_and_publish_calls w news :
  ∃ tail, tail `prefix_of` [CallPublish] ∧
    calls_of (trace (generate_and_publish w news)) = CallGenerate :: tail.
Proof.
  unfold generate_and_publish. rewrite generate_posts_run.
  destruct (parse_reply (llm_service w)) as [result|e];
    [|exists []; split; [apply prefix_nil|reflexivity]].
  destruct result as [| | | |l|kvs];
    try (exists []; split; [apply prefix_nil|reflexivity]).
  cbn [get eval print emit mbind io_bind trace outcome].
  set (posts := default (JArr []) (assoc_last (py "posts") kvs)).
  destruct (py_iter posts) as [drafts|e];
    [|exists []; split; [apply prefix_nil|reflexivity]].
  cbn [get eval print emit mbind io_bind trace outcome app].
  rewrite !calls_of_cons. cbn [call_of].
  rewrite trace_bind.
  destruct (outcome (for_each (enumerate1 drafts) show_post)).
  - rewrite calls_of_app, for_each_show_post_calls.
    cbn [trace app]. rewrite calls_of_cons. cbn [call_of].
    eexists. split; [apply send_to_spreadsheet_calls|reflexivity].
  - rewrite for_each_show_post_calls.
    exists []. split; [apply prefix_nil|reflexivity].
Qed.

End calls.

(** X16: with a key, a run calls the outside in a fixed order: one search
    for each query of [SEARCH_QUERIES], in their order, whatever the
    answers; then at most one call to the generative service; then, only
    after that one, at most one call to the webhook. *)
Theorem main_calls_in_order (w : world) (c : N) (k : str) :
  environ w !! TAVILY_API_KEY = Some (c :: k) →
  ∃ tail, tail `prefix_of` [CallGenerate; CallPublish] ∧
    calls_of (trace (main w)) = (CallSearch <$> SEARCH_QUERIES) ++ tail.
Proof.
  intros Hk.
  pose proof (fetch_news_with_key _ (main_run w) _ _ Hk) as Hf.
  set (st := foldl store_after _ _) in Hf.
  assert (calls_of (trace (fetch_loop (c :: k) (main_run w)
                            {| all_news := []; seen := ∅ |}))
          = CallSearch <$> SEARCH_QUERIES) as Hs.
  { rewrite fetch_loop_calls. reflexivity. }
  destruct (take 10 (all_news st)) as [|n news] eqn:Hn.
  - rewrite (main_fetch_empty _ _ Hf). cbn [trace].
    rewrite !calls_of_app, Hs.
    exists []. split; [apply prefix_nil|reflexivity].
  - rewrite (main_fetch_some _ _ _ Hf) by done. cbn [trace].
    destruct (generate_and_publish_calls w (n :: news)) as (tail & Ht & Hg).
    rewrite !calls_of_app, Hs, calls_of_cons. cbn [call_of].
    unfold title_lines.
    rewrite calls_of_app, Hg,
      (calls_of_prints (λ kn, LNewsTitle kn.1 (Str.upto 50 (title kn.2)))).
    exists (CallGenerate :: tail). split; [|reflexivity].
    by apply prefix_cons.
Qed.

Lemma main_calls_in_order_witness :
  ∃ tail, tail `prefix_of` [CallGenerate; CallPublish] ∧
    calls_of (trace (main world_complete))
      = (CallSearch <$> SEARCH_QUERIES) ++ tail.
Proof.
  apply (main_calls_in_order world_complete 116%N (py "vly-1")).
  vm_compute. reflexivity.
Defined.
